(** * Continuous fee minting simulation (cfm.py)

    A shallow embedding of the simulation script.  Python floats are read as
    real numbers (exact arithmetic, no rounding, no infinities or NaN),
    Python ints as [Z].  Exceptions are explicit: every division, every
    [pow] and the [pretty_delta] helper, which can raise in the script,
    return a [result].  The one float overflow that Python turns into an
    exception, that of [pow], is kept: a power above the largest finite
    float raises [OverflowError].  The random stream ([random.random()],
    one draw per loop iteration) is an explicit list of the values
    [r = random.random() * 2.0 - 1.0], each in [-1, 1).

    The text of the log lines is not modelled, only the values they show.
    [pretty_time] ([time.gmtime]) accepts every time up to the range of the
    platform's [time_t] and is left out. *)

From Stdlib Require Import Reals ZArith List Bool Lra Lia.
Import ListNotations.
Open Scope R_scope.

(** ** Exceptions and the error monad *)

Inductive exn : Type :=
| ArgumentTypeError
| ZeroDivisionError
| ValueError
| OverflowError.

Inductive result (A : Type) : Type :=
| Ok (a : A)
| Raise (e : exn).

Arguments Ok {A} a.
Arguments Raise {A} e.

Definition bind {A B : Type} (m : result A) (k : A -> result B) : result B :=
  match m with
  | Ok a => k a
  | Raise e => Raise e
  end.

Notation "x <- m ;; k" := (bind m (fun x => k))
  (at level 61, m at next level, right associativity).

(** ** Python arithmetic on idealised floats *)

Definition Rltb (x y : R) : bool := if Rlt_dec x y then true else false.
Definition Rgtb (x y : R) : bool := Rltb y x.
Definition Reqb (x y : R) : bool := if Req_dec_T x y then true else false.

(** [x / y] on floats: raises [ZeroDivisionError] when [y] is zero. *)
Definition py_div (x y : R) : result R :=
  if Reqb y 0 then Raise ZeroDivisionError else Ok (x / y).

(** [int(x)] on a float: truncation towards zero. *)
Definition py_int (x : R) : Z :=
  if Rltb x 0 then (- Int_part (- x))%Z else Int_part x.

(** The largest finite float, [(2 - 2^-52) * 2^1023]. *)
Definition float_max : R := IZR (2 ^ 1024 - 2 ^ 971).

(** The result of the C library's [pow]: a value above the float range
    comes back as infinity with [ERANGE], which [float_pow] turns into
    [OverflowError]; a value that underflows is returned as it is. *)
Definition float_range (v : R) : result R :=
  if Rgtb v float_max then Raise OverflowError else Ok v.

(** [pow(x, y)] on floats (floatobject.c, float_pow): [y == 0] gives 1; a
    zero base raises for a negative exponent; a negative base raises for a
    fractional exponent and otherwise takes the sign of the parity; the
    power of the absolute value is computed by the C library and raises
    [OverflowError] when it leaves the float range. *)
Definition py_pow (x y : R) : result R :=
  if Reqb y 0 then Ok 1
  else if Reqb x 0 then
    (if Rltb y 0 then Raise ZeroDivisionError else Ok 0)
  else if Rltb x 0 then
    (if Reqb (IZR (Int_part y)) y
     then v <- float_range (Rpower (- x) y) ;;
          Ok (if Z.odd (Int_part y) then - v else v)
     else Raise ValueError)
  else float_range (Rpower x y).

(** [pretty_delta(seconds)] (lines 15-18) adds
    [timedelta(seconds=int(seconds))] to [datetime(1,1,1)]; the sum must be
    a date of the years 1 to 9999, that is, the whole seconds must lie in
    [0, 3652059 days), or [OverflowError] is raised.  The value kept is the
    whole number of seconds that is formatted. *)
Definition datetime_span : Z := 3652059 * 86400.

Definition pretty_delta (seconds : R) : result Z :=
  let n := py_int seconds in
  if (n <? 0)%Z || (datetime_span <=? n)%Z then Raise OverflowError
  else Ok n.

(** ** Constants (cfm.py, lines 39-46) *)

Definition fund_value : R := 4000000.
Definition init_shares : R := 1000.
Definition customer_shares : R := 25.
Definition sim_periods : Z := 10.
Definition xlm_price : R := 45 / 100.
Definition stroop_per_tx : R := 100.
Definition stroop_per_xlm : R := 1 / 10000.

(** ** Command line and start-up (lines 21-32 and 59-84) *)

(** The parsed option values, before validation. *)
Record Args : Type := mkArgs {
  arg_fee : R;
  arg_period : Z;
  arg_mint : Z;
  arg_noise : Z;
  arg_drift : R;
  arg_tolerance : R
}.

Definition percentage (x : R) : result R :=
  if Rltb x 0 || Rgtb x 1 then Raise ArgumentTypeError else Ok x.

Definition positive_int (x : Z) : result Z :=
  if (x <=? 0)%Z then Raise ArgumentTypeError else Ok x.

Record Config : Type := mkConfig {
  mgmt_fee : R;
  inflation_rate : R;
  mgmt_fee_period : Z;
  mint_period : Z;
  mint_period_noise : Z;
  clock_drift : R;
  fee_tolerance : R
}.

(** Lines 67-84: argparse applies the [type=] checkers, then the derived
    parameters are computed, then the noise is checked against the mint
    period. *)
Definition startup (a : Args) : result Config :=
  fee <- percentage (arg_fee a) ;;
  period <- positive_int (arg_period a) ;;
  mintp <- positive_int (arg_mint a) ;;
  noise <- positive_int (arg_noise a) ;;
  rate <- py_div 1 (1 - fee) ;;
  if (noise >? mintp)%Z then Raise ArgumentTypeError
  else Ok {| mgmt_fee := fee;
             inflation_rate := rate;
             mgmt_fee_period := (period * 60 * 60 * 24)%Z;
             mint_period := mintp;
             mint_period_noise := noise;
             clock_drift := arg_drift a;
             fee_tolerance := arg_tolerance a |}.

(** ** Simulation state (lines 102-111) *)

Record State : Type := mkState {
  fund_shares : R;
  this_timestamp : R;
  last_timestamp : R;
  earnings : R;
  tx_fees : R;
  num_mints : Z;
  num_skips : Z;
  mint : R
}.

Definition init_state : State :=
  {| fund_shares := init_shares;
     this_timestamp := 0;
     last_timestamp := 0;
     earnings := 0;
     tx_fees := 0;
     num_mints := 0;
     num_skips := 0;
     mint := 0 |}.

Definition init_customer_value : R := fund_value / init_shares * customer_shares.

(** The fee charged for one mint transaction (line 149). *)
Definition this_tx_fee : R := stroop_per_xlm * xlm_price * stroop_per_tx.

(** ** What one iteration reports *)

(** The end-of-period summary line (lines 178-186). *)
Record Summary : Type := mkSummary {
  display_time : R;
  sum_mints : Z;
  sum_start : bool;
  sum_skips : Z;
  sum_shares : R;
  sum_price : R;
  sum_customer : R;
  sum_err : R;
  sum_earnings : R;
  sum_fees : R
}.

(** The locals of one iteration, as the debug line shows them, together
    with the flags that steer it. *)
Record Tick : Type := mkTick {
  wait : R;
  this_period : Z;
  last_period : Z;
  crossed : bool;
  new_period : bool;
  bootstrap : bool;
  skipped : bool;
  clock : R;
  time_delta : R;
  delta_shown : Z;
  shares_scalar : option R;
  candidate : R;
  applied : R;
  usd_per_day : R;
  fund_price : R;
  customer_value : R;
  summary : option Summary
}.

(** The outcome of the bootstrap / mint / throttle branch (lines 132-162). *)
Record Branch : Type := mkBranch {
  br_new_period : bool;
  br_skipped : bool;
  br_usd_per_day : R;
  br_display_time : R;
  br_scalar : option R;
  br_candidate : R;
  br_mint : R;
  br_tx_fees : R;
  br_num_mints : Z;
  br_num_skips : Z
}.

(** Lines 132-162.  [ts] is the clock after the boundary snap, [np] the
    flag set by the boundary check, [td] the drifted time delta. *)
Definition branch (c : Config) (s : State) (ts : R) (np : bool) (td : R)
  : result Branch :=
  if Reqb (last_timestamp s) 0 then
    Ok {| br_new_period := true;
          br_skipped := false;
          br_usd_per_day := 0;
          br_display_time := last_timestamp s;
          br_scalar := None;
          br_candidate := mint s;
          br_mint := mint s;
          br_tx_fees := tx_fees s;
          br_num_mints := num_mints s;
          br_num_skips := num_skips s |}
  else
    period_slice <- py_div td (IZR (mgmt_fee_period c)) ;;
    scalar <- py_pow (inflation_rate c) period_slice ;;
    let cand := fund_shares s * (scalar - 1) in
    let sim_days := ts / (60 * 60 * 24) in
    upd <- py_div (tx_fees s + this_tx_fee) sim_days ;;
    if Rgtb upd (fee_tolerance c) then
      Ok {| br_new_period := np;
            br_skipped := true;
            br_usd_per_day := upd;
            br_display_time := ts;
            br_scalar := Some scalar;
            br_candidate := cand;
            br_mint := 0;
            br_tx_fees := tx_fees s;
            br_num_mints := num_mints s;
            br_num_skips := (num_skips s + 1)%Z |}
    else
      Ok {| br_new_period := np;
            br_skipped := false;
            br_usd_per_day := upd;
            br_display_time := ts;
            br_scalar := Some scalar;
            br_candidate := cand;
            br_mint := cand;
            br_tx_fees := tx_fees s + this_tx_fee;
            br_num_mints := (num_mints s + 1)%Z;
            br_num_skips := num_skips s |}.

(** One iteration of the [while] loop (lines 115-189) with the draw [r].
    After a boundary snap [last_timestamp] holds a Python int, a multiple
    of the period, and line 123 divides two ints; the floor division of
    Python 2 and the real quotient then agree, so timestamps are reals
    throughout.  [pretty_delta] is called while the log line is built (line
    172), after the share count is updated and before the summary. *)
Definition tick (c : Config) (r : R) (s : State) : result (State * Tick) :=
  let w := IZR (mint_period c) + r * IZR (mint_period_noise c) in
  let ts0 := this_timestamp s + w in
  q_this <- py_div ts0 (IZR (mgmt_fee_period c)) ;;
  q_last <- py_div (last_timestamp s) (IZR (mgmt_fee_period c)) ;;
  let tp := py_int q_this in
  let lp := py_int q_last in
  let cr := (lp <? tp)%Z in
  let ts := if cr then IZR (tp * mgmt_fee_period c) else ts0 in
  let td := (ts - last_timestamp s) * (1 + clock_drift c) in
  b <- branch c s ts cr td ;;
  let shares := fund_shares s + br_mint b in
  price <- py_div fund_value shares ;;
  let earn := earnings s + br_mint b * price in
  let cust := price * customer_shares in
  shown <- pretty_delta td ;;
  sm <- (if br_new_period b then
           p <- py_pow (1 - mgmt_fee c) (IZR tp) ;;
           let ideal := init_customer_value * p in
           Ok (Some {| display_time := br_display_time b;
                       sum_mints := br_num_mints b;
                       sum_start := (br_num_mints b =? 0)%Z;
                       sum_skips := br_num_skips b;
                       sum_shares := shares;
                       sum_price := price;
                       sum_customer := cust;
                       sum_err := Rabs (cust - ideal);
                       sum_earnings := earn;
                       sum_fees := br_tx_fees b |})
         else Ok None) ;;
  Ok ({| fund_shares := shares;
         this_timestamp := ts;
         last_timestamp :=
           if negb (br_skipped b) || br_new_period b then ts
           else last_timestamp s;
         earnings := earn;
         tx_fees := br_tx_fees b;
         num_mints := if br_new_period b then 0%Z else br_num_mints b;
         num_skips := if br_new_period b then 0%Z else br_num_skips b;
         mint := br_mint b |},
      {| wait := w;
         this_period := tp;
         last_period := lp;
         crossed := cr;
         new_period := br_new_period b;
         bootstrap := Reqb (last_timestamp s) 0;
         skipped := br_skipped b;
         clock := ts;
         time_delta := td;
         delta_shown := shown;
         shares_scalar := br_scalar b;
         candidate := br_candidate b;
         applied := br_mint b;
         usd_per_day := br_usd_per_day b;
         fund_price := price;
         customer_value := cust;
         summary := sm |}).

(** The loop test (line 113). *)
Definition loop_cond (c : Config) (s : State) : bool :=
  negb (Rgtb (this_timestamp s) (IZR (mgmt_fee_period c * sim_periods))).

(** The loop, driven by the draws [rs]: it stops when the loop test fails
    (or when the draws run out). *)
Fixpoint run (c : Config) (rs : list R) (s : State)
  : result (State * list Tick) :=
  match rs with
  | [] => Ok (s, [])
  | r :: rs' =>
      if loop_cond c s then
        st <- tick c r s ;;
        rest <- run c rs' (fst st) ;;
        Ok (fst rest, snd st :: snd rest)
      else Ok (s, [])
  end.

(** A draw of the script: [random.random() * 2.0 - 1.0]. *)
Definition valid_draw (r : R) : Prop := -1 <= r < 1.

(** States the loop can be in at the top of an iteration. *)
Inductive reachable (c : Config) : State -> Prop :=
| reach_init : reachable c init_state
| reach_tick (s s' : State) (r : R) (o : Tick) :
    reachable c s ->
    loop_cond c s = true ->
    valid_draw r ->
    tick c r s = Ok (s', o) ->
    reachable c s'.

(** ** Fee periods *)

(** The index of the fee period a time falls in (lines 122-123). *)
Definition period_of (c : Config) (t : R) : Z := py_int (t / IZR (mgmt_fee_period c)).

(** ** Accepted configurations *)

(** What start-up guarantees about the configuration it returns. *)
Record accepted (c : Config) : Prop := mkAccepted {
  acc_fee : 0 <= mgmt_fee c < 1;
  acc_rate : inflation_rate c = 1 / (1 - mgmt_fee c);
  acc_period : (0 < mgmt_fee_period c)%Z;
  acc_mint : (0 < mint_period c)%Z;
  acc_noise : (0 < mint_period_noise c <= mint_period c)%Z
}.

(** ** The iteration without its error cases

    On the states the loop reaches no division of an iteration raises;
    the [pow] of the minting formula raises exactly when the growth factor
    is not [representable], and [pretty_delta] raises exactly when the
    drifted time delta is not [printable].  [step] is the iteration with
    these operations read as total; [tick_eq] below shows that [tick]
    returns exactly it, or raises [OverflowError] in [pow] or in
    [pretty_delta]. *)

Definition wait_of (c : Config) (r : R) : R :=
  IZR (mint_period c) + r * IZR (mint_period_noise c).

Definition proposed (c : Config) (r : R) (s : State) : R :=
  this_timestamp s + wait_of c r.

Definition crosses (c : Config) (r : R) (s : State) : bool :=
  (period_of c (last_timestamp s) <? period_of c (proposed c r s))%Z.

Definition snapped (c : Config) (r : R) (s : State) : R :=
  if crosses c r s
  then IZR (period_of c (proposed c r s) * mgmt_fee_period c)
  else proposed c r s.

Definition delta_of (c : Config) (r : R) (s : State) : R :=
  (snapped c r s - last_timestamp s) * (1 + clock_drift c).

Definition growth_of (c : Config) (r : R) (s : State) : R :=
  Rpower (inflation_rate c) (delta_of c r s / IZR (mgmt_fee_period c)).

Definition rate_of (c : Config) (r : R) (s : State) : R :=
  (tx_fees s + this_tx_fee) / (snapped c r s / (60 * 60 * 24)).

Definition throttled (c : Config) (r : R) (s : State) : bool :=
  Rgtb (rate_of c r s) (fee_tolerance c).

Definition branch_of (c : Config) (r : R) (s : State) : Branch :=
  if Reqb (last_timestamp s) 0 then
    mkBranch true false 0 (last_timestamp s) None (mint s) (mint s)
             (tx_fees s) (num_mints s) (num_skips s)
  else if throttled c r s then
    mkBranch (crosses c r s) true (rate_of c r s) (snapped c r s)
             (Some (growth_of c r s))
             (fund_shares s * (growth_of c r s - 1)) 0
             (tx_fees s) (num_mints s) (num_skips s + 1)%Z
  else
    mkBranch (crosses c r s) false (rate_of c r s) (snapped c r s)
             (Some (growth_of c r s))
             (fund_shares s * (growth_of c r s - 1))
             (fund_shares s * (growth_of c r s - 1))
             (tx_fees s + this_tx_fee) (num_mints s + 1)%Z (num_skips s).

Definition summary_of (c : Config) (r : R) (s : State) (b : Branch) : option Summary :=
  let shares := fund_shares s + br_mint b in
  let price := fund_value / shares in
  if br_new_period b then
    Some (mkSummary (br_display_time b) (br_num_mints b)
            (br_num_mints b =? 0)%Z (br_num_skips b) shares price
            (price * customer_shares)
            (Rabs (price * customer_shares
                   - init_customer_value
                     * Rpower (1 - mgmt_fee c) (IZR (period_of c (proposed c r s)))))
            (earnings s + br_mint b * price) (br_tx_fees b))
  else None.

Definition next_state (c : Config) (r : R) (s : State) (b : Branch) : State :=
  let shares := fund_shares s + br_mint b in
  let price := fund_value / shares in
  mkState shares (snapped c r s)
    (if negb (br_skipped b) || br_new_period b then snapped c r s
     else last_timestamp s)
    (earnings s + br_mint b * price) (br_tx_fees b)
    (if br_new_period b then 0%Z else br_num_mints b)
    (if br_new_period b then 0%Z else br_num_skips b)
    (br_mint b).

Definition report (c : Config) (r : R) (s : State) (b : Branch) : Tick :=
  let shares := fund_shares s + br_mint b in
  let price := fund_value / shares in
  mkTick (wait_of c r) (period_of c (proposed c r s))
    (period_of c (last_timestamp s)) (crosses c r s) (br_new_period b)
    (Reqb (last_timestamp s) 0) (br_skipped b) (snapped c r s)
    (delta_of c r s) (py_int (delta_of c r s)) (br_scalar b)
    (br_candidate b) (br_mint b)
    (br_usd_per_day b) price (price * customer_shares)
    (summary_of c r s b).

Definition step (c : Config) (r : R) (s : State) : State * Tick :=
  (next_state c r s (branch_of c r s), report c r s (branch_of c r s)).

(** The drifted time delta of the iteration is one [pretty_delta] accepts. *)
Definition printable (c : Config) (r : R) (s : State) : Prop :=
  (0 <= py_int (delta_of c r s) < datetime_span)%Z.

(** The growth factor of a post-bootstrap iteration (line 144) is within
    the float range. *)
Definition representable (c : Config) (r : R) (s : State) : Prop :=
  last_timestamp s <> 0 -> growth_of c r s <= float_max.

(** ** The loop invariant *)

Record state_ok (c : Config) (s : State) : Prop := mkStateOk {
  ok_last : 0 <= last_timestamp s;
  ok_order : last_timestamp s <= this_timestamp s;
  ok_period : period_of c (this_timestamp s) = period_of c (last_timestamp s);
  ok_shares : 0 < fund_shares s;
  ok_fees : 0 <= tx_fees s;
  ok_boot : last_timestamp s = 0 -> mint s = 0
}.

(** ** Boundaries and growth factors of a run *)

(** The iteration [o] takes the committed clock across the boundary that
    ends fee period [j - 1]. *)
Definition crosses_boundary (j : Z) (o : Tick) : Prop :=
  (last_period o < j <= this_period o)%Z.

(** The growth factor [shares_scalar] an iteration computed (the bootstrap
    iteration computes none and leaves the share count alone). *)
Definition growth (o : Tick) : R :=
  match shares_scalar o with
  | Some g => g
  | None => 1
  end.

Definition growth_product (os : list Tick) : R :=
  fold_right (fun o acc => growth o * acc) 1 os.

(** ** A run with two mints per fee period

    Fee 0.5, a one-day fee period, a mint every 43200 seconds, noise 1,
    no drift, tolerance 1 USD/day; every draw is 0. *)

Definition half_args : Args := mkArgs (1 / 2) 1 43200 1 0 1.
Definition half_config : Config :=
  mkConfig (1 / 2) (1 / (1 - 1 / 2)) 86400 43200 1 0 1.
Definition half1 : State := fst (step half_config 0 init_state).
Definition half2 : State := fst (step half_config 0 half1).
Definition half3 : State := fst (step half_config 0 half2).
Definition half4 : State := fst (step half_config 0 half3).
Definition half_tick1 : Tick := snd (step half_config 0 init_state).
Definition half_tick2 : Tick := snd (step half_config 0 half1).
Definition half_tick3 : Tick := snd (step half_config 0 half2).
Definition half_tick4 : Tick := snd (step half_config 0 half3).

(** ** Concrete option sets *)

(** The defaults of the script. *)
Definition default_args : Args := mkArgs (2 / 100) 365 300 240 (1 / 1000) 1.
Definition default_config : Config :=
  mkConfig (2 / 100) (1 / (1 - 2 / 100)) 31536000 300 240 (1 / 1000) 1.

(** [--period 1 --mint 50000 --noise 1 --drift 0 --tolerance 0]. *)
Definition zero_tolerance_args : Args := mkArgs (2 / 100) 1 50000 1 0 0.
Definition zero_tolerance_config : Config :=
  mkConfig (2 / 100) (1 / (1 - 2 / 100)) 86400 50000 1 0 0.

(** [--period 1 --mint 43200 --noise 1 --drift 0 --tolerance 0.001]. *)
Definition low_tolerance_args : Args := mkArgs (2 / 100) 1 43200 1 0 (1 / 1000).
Definition low_tolerance_config : Config :=
  mkConfig (2 / 100) (1 / (1 - 2 / 100)) 86400 43200 1 0 (1 / 1000).

(** [--drift -1.001], the rest as the defaults. *)
Definition drift_args : Args :=
  mkArgs (2 / 100) 365 300 240 (- (1001 / 1000)) 1.
Definition drift_config : Config :=
  mkConfig (2 / 100) (1 / (1 - 2 / 100)) 31536000 300 240 (- (1001 / 1000)) 1.

(** [--drift -2], the rest as the defaults. *)
Definition backward_args : Args := mkArgs (2 / 100) 365 300 240 (-2) 1.
Definition backward_config : Config :=
  mkConfig (2 / 100) (1 / (1 - 2 / 100)) 31536000 300 240 (-2) 1.

(** [--noise 300], equal to the default mint period. *)
Definition equal_noise_args : Args := mkArgs (2 / 100) 365 300 300 (1 / 1000) 1.
Definition equal_noise_config : Config :=
  mkConfig (2 / 100) (1 / (1 - 2 / 100)) 31536000 300 300 (1 / 1000) 1.

(** [--fee 1.0], the rest as the defaults. *)
Definition full_fee_args : Args := mkArgs 1 365 300 240 (1 / 1000) 1.

(** The defaults with every draw [random.random() = 0.25], that is
    [r = -1/2]: a wait of 180 seconds between two iterations. *)
Definition quick1 : State := fst (step default_config (- (1 / 2)) init_state).
Definition quick2 : State := fst (step default_config (- (1 / 2)) quick1).
Definition quick_tick2 : Tick := snd (step default_config (- (1 / 2)) quick1).

(** [--tolerance 0], the rest as the defaults; every draw is 0. *)
Definition strict_args : Args := mkArgs (2 / 100) 365 300 240 (1 / 1000) 0.
Definition strict_config : Config :=
  mkConfig (2 / 100) (1 / (1 - 2 / 100)) 31536000 300 240 (1 / 1000) 0.
Definition strict1 : State := fst (step strict_config 0 init_state).
Definition strict2 : State := fst (step strict_config 0 strict1).
Definition strict_tick2 : Tick := snd (step strict_config 0 strict1).

(** [--fee 0.5 --period 1 --mint 43200 --noise 1 --drift 100000]: a clock
    that runs a hundred thousand times too fast.  [fast1] is the state
    after the bootstrap iteration with the draw 0. *)
Definition fast_args : Args := mkArgs (1 / 2) 1 43200 1 100000 1.
Definition fast_config : Config :=
  mkConfig (1 / 2) (1 / (1 - 1 / 2)) 86400 43200 1 100000 1.
Definition fast1 : State := fst (step fast_config 0 init_state).

(** ** Progress of the loop and paid iterations *)

(** The shortest wait between two iterations (line 117 with [r = -1]). *)
Definition min_wait (c : Config) : R :=
  IZR (mint_period c) - IZR (mint_period_noise c).

(** Progress of the loop: the clock, plus one shortest wait for every fee
    period already entered. *)
Definition potential (c : Config) (s : State) : R :=
  this_timestamp s + min_wait c * IZR (period_of c (this_timestamp s)).

(** The end of the simulated time (line 113). *)
Definition horizon (c : Config) : R := IZR (mgmt_fee_period c * sim_periods).

(** An iteration that paid the transaction fee (lines 160-162). *)
Definition charged (o : Tick) : bool := negb (bootstrap o) && negb (skipped o).

(** * Properties *)

(** ** Basic facts about the arithmetic layer *)

Lemma Rltb_true (x y : R) : x < y -> Rltb x y = true.
Proof. intros H; unfold Rltb; destruct (Rlt_dec x y); [reflexivity | contradiction]. Qed.

Lemma Rltb_false (x y : R) : y <= x -> Rltb x y = false.
Proof. intros H; unfold Rltb; destruct (Rlt_dec x y); [lra | reflexivity]. Qed.

Lemma Rltb_spec (x y : R) : Rltb x y = true <-> x < y.
Proof. unfold Rltb; destruct (Rlt_dec x y); split; intros; try assumption; try reflexivity; try discriminate; contradiction. Qed.

Lemma Rgtb_true (x y : R) : y < x -> Rgtb x y = true.
Proof. apply Rltb_true. Qed.

Lemma Rgtb_false (x y : R) : x <= y -> Rgtb x y = false.
Proof. apply Rltb_false. Qed.

Lemma Reqb_true (x y : R) : x = y -> Reqb x y = true.
Proof. intros H; unfold Reqb; destruct (Req_dec_T x y); [reflexivity | contradiction]. Qed.

Lemma Reqb_false (x y : R) : x <> y -> Reqb x y = false.
Proof. intros H; unfold Reqb; destruct (Req_dec_T x y); [contradiction | reflexivity]. Qed.

Lemma py_div_ok (x y : R) : y <> 0 -> py_div x y = Ok (x / y).
Proof. intros H; unfold py_div; rewrite Reqb_false by assumption; reflexivity. Qed.

Lemma py_div_zero (x : R) : py_div x 0 = Raise ZeroDivisionError.
Proof. unfold py_div; rewrite Reqb_true by reflexivity; reflexivity. Qed.

Lemma float_max_ge_2 : 2 <= float_max.
Proof. unfold float_max. apply IZR_le. discriminate. Qed.

Lemma float_range_ok (v : R) : v <= float_max -> float_range v = Ok v.
Proof. intros H. unfold float_range. now rewrite Rgtb_false. Qed.

Lemma float_range_raises (v : R) :
  float_max < v -> float_range v = Raise OverflowError.
Proof. intros H. unfold float_range. now rewrite Rgtb_true. Qed.

(** A positive base: the power, unless it leaves the float range. *)
Lemma py_pow_pos (x y : R) :
  0 < x -> Rpower x y <= float_max -> py_pow x y = Ok (Rpower x y).
Proof.
  intros Hx Hm; unfold py_pow.
  destruct (Req_dec_T y 0) as [-> | Hy].
  - rewrite Reqb_true by reflexivity. now rewrite Rpower_O.
  - rewrite (Reqb_false y 0) by assumption.
    rewrite (Reqb_false x 0) by lra.
    rewrite (Rltb_false x 0) by lra. now apply float_range_ok.
Qed.

Lemma py_pow_overflow (x y : R) :
  0 < x -> float_max < Rpower x y -> py_pow x y = Raise OverflowError.
Proof.
  intros Hx Hm; unfold py_pow. pose proof float_max_ge_2 as H2.
  destruct (Req_dec_T y 0) as [-> | Hy].
  - rewrite Rpower_O in Hm by assumption. lra.
  - rewrite (Reqb_false y 0) by assumption.
    rewrite (Reqb_false x 0) by lra.
    rewrite (Rltb_false x 0) by lra. now apply float_range_raises.
Qed.

Lemma py_pow_pos_eq (x y : R) :
  0 < x -> py_pow x y = float_range (Rpower x y).
Proof.
  intros Hx. destruct (Rle_dec (Rpower x y) float_max) as [H | H].
  - rewrite py_pow_pos, float_range_ok by assumption. reflexivity.
  - rewrite py_pow_overflow, float_range_raises by lra. reflexivity.
Qed.

Lemma Rpower_pos (x y : R) : 0 < Rpower x y.
Proof. unfold Rpower; apply exp_pos. Qed.

Lemma Rpower_ge_1 (x y : R) : 1 <= x -> 0 <= y -> 1 <= Rpower x y.
Proof.
  intros Hx Hy.
  destruct (Req_dec_T y 0) as [-> | Hy0]; [rewrite Rpower_O; lra |].
  destruct (Req_dec_T x 1) as [-> | Hx1].
  - unfold Rpower. rewrite ln_1, Rmult_0_r, exp_0. lra.
  - rewrite <- (Rpower_O x) by lra. left. apply Rpower_lt; lra.
Qed.

Lemma Rpower_lt_1 (x y : R) : 1 < x -> y < 0 -> Rpower x y < 1.
Proof.
  intros Hx Hy. rewrite <- (Rpower_O x) by lra. apply Rpower_lt; lra.
Qed.

Lemma Rpower_base_1 (y : R) : Rpower 1 y = 1.
Proof. unfold Rpower. now rewrite ln_1, Rmult_0_r, exp_0. Qed.

Lemma Rpower_le_1 (x y : R) : 0 < x <= 1 -> 0 <= y -> Rpower x y <= 1.
Proof.
  intros Hx Hy. rewrite <- (Rpower_base_1 y). now apply Rle_Rpower_l.
Qed.

(** A power of a base of at least 1 grows with the exponent. *)
Lemma Rpower_le_exp (x y z : R) : 1 <= x -> y <= z -> Rpower x y <= Rpower x z.
Proof.
  intros Hx Hyz.
  destruct (Req_dec_T x 1) as [-> | Hx1]; [rewrite !Rpower_base_1; lra |].
  destruct (Req_dec_T y z) as [-> | Hne]; [lra |].
  left. apply Rpower_lt; lra.
Qed.

(** Powers of a base up to 2 with an exponent up to 1000 are floats. *)
Lemma Rpower_small (x y : R) :
  1 <= x <= 2 -> y <= 1000 -> Rpower x y <= float_max.
Proof.
  intros [H1 H2] Hy.
  apply Rle_trans with (Rpower x 1000); [now apply Rpower_le_exp |].
  apply Rle_trans with (Rpower 2 1000); [apply Rle_Rpower_l; lra |].
  replace 1000 with (INR 1000) by (now rewrite INR_IZR_INZ).
  rewrite Rpower_pow by lra. rewrite pow_IZR.
  unfold float_max. apply IZR_le. discriminate.
Qed.

Lemma py_int_nonneg (x : R) : 0 <= x -> py_int x = Int_part x.
Proof. intros H; unfold py_int; rewrite Rltb_false by assumption; reflexivity. Qed.

Lemma py_int_bounds (x : R) : 0 <= x -> IZR (py_int x) <= x < IZR (py_int x) + 1.
Proof.
  intros H. rewrite py_int_nonneg by assumption.
  destruct (base_Int_part x). lra.
Qed.

Lemma py_int_eq (x : R) (z : Z) : IZR z <= x < IZR z + 1 -> 0 <= x -> py_int x = z.
Proof.
  intros H H0. rewrite py_int_nonneg by assumption.
  symmetry. apply Int_part_spec. lra.
Qed.

Lemma py_int_ge0 (x : R) : 0 <= x -> (0 <= py_int x)%Z.
Proof.
  intros H. destruct (py_int_bounds x H) as [_ Hu].
  apply Z.lt_succ_r. apply lt_IZR. rewrite succ_IZR. lra.
Qed.

Lemma py_int_mono (x y : R) : 0 <= x -> x <= y -> (py_int x <= py_int y)%Z.
Proof.
  intros Hx Hxy.
  destruct (py_int_bounds x Hx) as [Hl _].
  destruct (py_int_bounds y ltac:(lra)) as [_ Hu].
  apply Z.lt_succ_r. apply lt_IZR. rewrite succ_IZR. lra.
Qed.

(** ** Fee periods *)

Section Periods.
Variable c : Config.
Hypothesis Ppos : (0 < mgmt_fee_period c)%Z.

Lemma P_pos : 0 < IZR (mgmt_fee_period c).
Proof. apply IZR_lt in Ppos. exact Ppos. Qed.

Lemma quot_nonneg (t : R) : 0 <= t -> 0 <= t / IZR (mgmt_fee_period c).
Proof.
  intros H. pose proof P_pos. apply Rmult_le_pos; [assumption |].
  left. now apply Rinv_0_lt_compat.
Qed.

Lemma period_of_ge0 (t : R) : 0 <= t -> (0 <= period_of c t)%Z.
Proof. intros H. apply py_int_ge0. now apply quot_nonneg. Qed.

Lemma period_of_mono (t u : R) : 0 <= t -> t <= u -> (period_of c t <= period_of c u)%Z.
Proof.
  intros Ht Htu. pose proof P_pos. apply py_int_mono.
  - now apply quot_nonneg.
  - apply Rmult_le_compat_r; [| assumption]. left. now apply Rinv_0_lt_compat.
Qed.

Lemma period_of_bounds (t : R) :
  0 <= t ->
  IZR (period_of c t * mgmt_fee_period c) <= t
  < IZR ((period_of c t + 1) * mgmt_fee_period c).
Proof.
  intros Ht. pose proof P_pos as HP.
  destruct (py_int_bounds _ (quot_nonneg t Ht)) as [Hl Hu].
  fold (period_of c t) in Hl, Hu.
  rewrite !mult_IZR, plus_IZR.
  assert (E : t = t / IZR (mgmt_fee_period c) * IZR (mgmt_fee_period c))
    by (field; lra).
  split.
  - rewrite E at 2. apply Rmult_le_compat_r; lra.
  - rewrite E at 1. apply Rmult_lt_compat_r; lra.
Qed.

Lemma period_of_multiple (k : Z) :
  (0 <= k)%Z -> period_of c (IZR (k * mgmt_fee_period c)) = k.
Proof.
  intros Hk. pose proof P_pos as HP. unfold period_of.
  assert (E : IZR (k * mgmt_fee_period c) / IZR (mgmt_fee_period c) = IZR k)
    by (rewrite mult_IZR; field; lra).
  rewrite E. apply py_int_eq; [lra |]. now apply IZR_le.
Qed.

Lemma period_of_lt (t : R) (k : Z) :
  0 <= t -> (period_of c t < k)%Z -> t < IZR (k * mgmt_fee_period c).
Proof.
  intros Ht Hk. destruct (period_of_bounds t Ht) as [_ Hu].
  eapply Rlt_le_trans; [exact Hu |].
  apply IZR_le. apply Z.mul_le_mono_nonneg_r; lia.
Qed.

Lemma period_of_le (t : R) (k : Z) :
  0 <= t -> (k <= period_of c t)%Z -> IZR (k * mgmt_fee_period c) <= t.
Proof.
  intros Ht Hk. destruct (period_of_bounds t Ht) as [Hl _].
  eapply Rle_trans; [| exact Hl].
  apply IZR_le. apply Z.mul_le_mono_nonneg_r; lia.
Qed.
End Periods.

(** ** Accepted configurations *)

Lemma percentage_inv (x y : R) : percentage x = Ok y -> y = x /\ 0 <= x <= 1.
Proof.
  unfold percentage, Rgtb, Rltb.
  destruct (Rlt_dec x 0) as [H0 | H0], (Rlt_dec 1 x) as [H1 | H1]; simpl; intros E; try discriminate.
  injection E as <-. split; [reflexivity | lra].
Qed.

Lemma positive_int_inv (x y : Z) : positive_int x = Ok y -> y = x /\ (0 < x)%Z.
Proof.
  unfold positive_int. destruct (Z.leb_spec x 0) as [Hle | Hlt]; intros E; try discriminate.
  injection E as <-. split; [reflexivity | assumption].
Qed.

Lemma py_div_inv (x y q : R) : py_div x y = Ok q -> y <> 0 /\ q = x / y.
Proof.
  unfold py_div, Reqb. destruct (Req_dec_T y 0) as [Hy | Hy]; intros E; try discriminate.
  injection E as <-. split; [assumption | reflexivity].
Qed.

Lemma startup_accepted (a : Args) (c : Config) :
  startup a = Ok c ->
  accepted c /\
  mgmt_fee c = arg_fee a /\
  mgmt_fee_period c = (arg_period a * 60 * 60 * 24)%Z /\
  mint_period c = arg_mint a /\
  mint_period_noise c = arg_noise a /\
  clock_drift c = arg_drift a /\
  fee_tolerance c = arg_tolerance a.
Proof.
  unfold startup. intros H.
  destruct (percentage (arg_fee a)) as [fee |] eqn:Ef; simpl in H; try discriminate.
  destruct (positive_int (arg_period a)) as [p |] eqn:Ep; simpl in H; try discriminate.
  destruct (positive_int (arg_mint a)) as [m |] eqn:Em; simpl in H; try discriminate.
  destruct (positive_int (arg_noise a)) as [n |] eqn:En; simpl in H; try discriminate.
  destruct (py_div 1 (1 - fee)) as [rate |] eqn:Er; simpl in H; try discriminate.
  destruct (Z.gtb_spec n m) as [Hnm | Hnm]; try discriminate.
  injection H as <-. simpl.
  apply percentage_inv in Ef as [-> Hf].
  apply positive_int_inv in Ep as [-> Hp].
  apply positive_int_inv in Em as [-> Hm].
  apply positive_int_inv in En as [-> Hn].
  apply py_div_inv in Er as [Hne ->].
  repeat split; simpl; try reflexivity; try lia; lra.
Qed.

Section Accepted.
Variable c : Config.
Hypothesis Hacc : accepted c.

Lemma rate_ge_1 : 1 <= inflation_rate c.
Proof.
  destruct Hacc as [Hf Hr _ _ _]. rewrite Hr.
  assert (0 < 1 - mgmt_fee c <= 1) as [H0 H1] by lra.
  unfold Rdiv. rewrite Rmult_1_l. rewrite <- Rinv_1 at 1.
  apply Rinv_le_contravar; assumption.
Qed.

Lemma rate_pos : 0 < inflation_rate c.
Proof. pose proof rate_ge_1. lra. Qed.

Lemma rate_gt_1 : 0 < mgmt_fee c -> 1 < inflation_rate c.
Proof.
  intros Hpos. destruct Hacc as [Hf Hr _ _ _]. rewrite Hr.
  unfold Rdiv. rewrite Rmult_1_l. rewrite <- Rinv_1 at 1.
  apply Rinv_lt_contravar; lra.
Qed.

Lemma period_pos : 0 < IZR (mgmt_fee_period c).
Proof. apply P_pos. apply Hacc. Qed.

(** The wait between two mints is never negative (line 117). *)
Lemma wait_nonneg (r : R) :
  -1 <= r -> 0 <= IZR (mint_period c) + r * IZR (mint_period_noise c).
Proof.
  intros Hr. destruct Hacc as [_ _ _ Hm [Hn0 Hn]].
  apply IZR_lt in Hn0. apply IZR_le in Hn. apply IZR_lt in Hm. nra.
Qed.

(** With noise strictly below the mint period the wait is positive. *)
Lemma wait_pos (r : R) :
  (mint_period_noise c < mint_period c)%Z ->
  -1 <= r -> 0 < IZR (mint_period c) + r * IZR (mint_period_noise c).
Proof.
  intros Hlt Hr. destruct Hacc as [_ _ _ Hm [Hn0 Hn]].
  apply IZR_lt in Hn0. apply IZR_lt in Hlt. nra.
Qed.
End Accepted.

(** ** The loop invariant *)

Lemma init_state_ok (c : Config) : state_ok c init_state.
Proof.
  constructor; simpl; try lra; try reflexivity.
  unfold init_shares; lra.
Qed.

Lemma classic_printable (x : R) :
  (0 <= py_int x < datetime_span)%Z \/ ~ (0 <= py_int x < datetime_span)%Z.
Proof.
  destruct (Z_le_dec 0 (py_int x)); [| right; lia].
  destruct (Z_lt_dec (py_int x) datetime_span); [left | right]; lia.
Qed.

Section Step.
Variable c : Config.
Hypothesis Hacc : accepted c.
Variable s : State.
Hypothesis Hok : state_ok c s.
Variable r : R.
Hypothesis Hr : -1 <= r.

Lemma proposed_ge : this_timestamp s <= proposed c r s.
Proof. unfold proposed, wait_of. pose proof (wait_nonneg c Hacc r Hr). lra. Qed.

Lemma proposed_nonneg : 0 <= proposed c r s.
Proof. pose proof proposed_ge. destruct Hok. lra. Qed.

Lemma crosses_true :
  crosses c r s = true ->
  (period_of c (last_timestamp s) < period_of c (proposed c r s))%Z.
Proof. unfold crosses. apply Z.ltb_lt. Qed.

Lemma crosses_false :
  crosses c r s = false ->
  period_of c (proposed c r s) = period_of c (last_timestamp s).
Proof.
  unfold crosses. intros H. apply Z.ltb_ge in H.
  apply Z.le_antisymm; [assumption |].
  apply period_of_mono; [apply Hacc | apply Hok |].
  pose proof proposed_ge. destruct Hok. lra.
Qed.

(** The clock never moves backwards, snap included. *)
Lemma snapped_ge_this : this_timestamp s <= snapped c r s.
Proof.
  unfold snapped. destruct (crosses c r s) eqn:E; [| apply proposed_ge].
  apply crosses_true in E. left.
  apply period_of_lt; [apply Hacc | destruct Hok; lra |].
  now rewrite (ok_period c s Hok).
Qed.

Lemma snapped_ge_last : last_timestamp s <= snapped c r s.
Proof. pose proof snapped_ge_this. destruct Hok. lra. Qed.

Lemma snapped_period :
  period_of c (snapped c r s) = period_of c (proposed c r s).
Proof.
  unfold snapped. destruct (crosses c r s) eqn:E; [| reflexivity].
  apply period_of_multiple; [apply Hacc |].
  apply period_of_ge0; [apply Hacc | apply proposed_nonneg].
Qed.

Lemma delta_nonneg : -1 <= clock_drift c -> 0 <= delta_of c r s.
Proof.
  intros Hd. unfold delta_of. pose proof snapped_ge_last.
  apply Rmult_le_pos; lra.
Qed.

Lemma growth_pos : 0 < growth_of c r s.
Proof. apply Rpower_pos. Qed.

Lemma growth_ge_1 : -1 <= clock_drift c -> 1 <= growth_of c r s.
Proof.
  intros Hd. apply Rpower_ge_1; [now apply rate_ge_1 |].
  pose proof (period_pos c Hacc). pose proof (delta_nonneg Hd).
  apply Rmult_le_pos; [assumption |]. left. now apply Rinv_0_lt_compat.
Qed.

Lemma branch_mint_shares : 0 < fund_shares s + br_mint (branch_of c r s).
Proof.
  destruct Hok as [_ _ _ Hs _ Hb]. unfold branch_of.
  destruct (Req_dec_T (last_timestamp s) 0) as [E | E].
  - rewrite Reqb_true by assumption. simpl. rewrite (Hb E). lra.
  - rewrite Reqb_false by assumption.
    destruct (throttled c r s); simpl; [lra |].
    pose proof growth_pos. nra.
Qed.

Lemma pretty_delta_ok (x : R) :
  (0 <= py_int x < datetime_span)%Z -> pretty_delta x = Ok (py_int x).
Proof.
  intros [H0 H1]. unfold pretty_delta.
  destruct (Z.ltb_spec (py_int x) 0); [lia |].
  destruct (Z.leb_spec datetime_span (py_int x)); [lia | reflexivity].
Qed.

Lemma pretty_delta_raises (x : R) :
  ~ (0 <= py_int x < datetime_span)%Z -> pretty_delta x = Raise OverflowError.
Proof.
  intros H. unfold pretty_delta.
  destruct (Z.ltb_spec (py_int x) 0); [reflexivity |].
  destruct (Z.leb_spec datetime_span (py_int x)); [reflexivity | lia].
Qed.

(** The [pow] of the summary line (line 179) never leaves the float range:
    its base is in (0, 1] and its exponent is a period index. *)
Lemma summary_pow :
  py_pow (1 - mgmt_fee c) (IZR (period_of c (proposed c r s)))
  = Ok (Rpower (1 - mgmt_fee c) (IZR (period_of c (proposed c r s)))).
Proof.
  assert (Hfee : 0 < 1 - mgmt_fee c <= 1) by (destruct Hacc as [Hf _ _ _ _]; lra).
  apply py_pow_pos; [lra |].
  apply Rle_trans with 1; [| pose proof float_max_ge_2; lra].
  apply Rpower_le_1; [assumption |].
  apply IZR_le. apply period_of_ge0; [apply Hacc | apply proposed_nonneg].
Qed.

(** On a state the loop can be in, the only exceptions of an iteration are
    the [OverflowError] of the [pow] of line 144 and the [OverflowError] of
    [pretty_delta]. *)
Lemma tick_eq :
  tick c r s =
  (_ <- (if Reqb (last_timestamp s) 0 then Ok 1
         else float_range (growth_of c r s)) ;;
   _ <- pretty_delta (delta_of c r s) ;; Ok (step c r s)).
Proof.
  pose proof (period_pos c Hacc) as HP.
  pose proof branch_mint_shares as Hsh.
  unfold tick.
  rewrite !py_div_ok by lra. cbn [bind].
  fold (wait_of c r). fold (proposed c r s).
  fold (period_of c (proposed c r s)). fold (period_of c (last_timestamp s)).
  fold (crosses c r s). fold (snapped c r s). fold (delta_of c r s).
  assert (Hb : branch c s (snapped c r s) (crosses c r s) (delta_of c r s)
               = (_ <- (if Reqb (last_timestamp s) 0 then Ok 1
                        else float_range (growth_of c r s)) ;;
                  Ok (branch_of c r s))).
  { unfold branch, branch_of.
    destruct (Req_dec_T (last_timestamp s) 0) as [E | E].
    - rewrite Reqb_true by assumption. reflexivity.
    - rewrite Reqb_false by assumption.
      rewrite py_div_ok by lra. cbn [bind].
      rewrite py_pow_pos_eq by (now apply rate_pos).
      fold (growth_of c r s).
      destruct (float_range (growth_of c r s)) as [g |] eqn:Eg; [| reflexivity].
      assert (g = growth_of c r s) as ->.
      { revert Eg. unfold float_range.
        destruct (Rgtb (growth_of c r s) float_max); congruence. }
      cbn [bind].
      assert (0 < snapped c r s)
        by (pose proof snapped_ge_last; destruct Hok; lra).
      rewrite py_div_ok by lra. cbn [bind].
      fold (rate_of c r s). fold (throttled c r s).
      destruct (throttled c r s); reflexivity. }
  rewrite Hb.
  destruct (if Reqb (last_timestamp s) 0 then Ok 1
            else float_range (growth_of c r s)) as [g |]; [| reflexivity].
  cbn [bind].
  rewrite py_div_ok by lra. cbn [bind].
  destruct (classic_printable (delta_of c r s)) as [Hp | Hp].
  - rewrite (pretty_delta_ok _ Hp). cbn [bind].
    unfold step, next_state, report, summary_of.
    destruct (br_new_period (branch_of c r s)).
    + rewrite summary_pow. reflexivity.
    + reflexivity.
  - rewrite (pretty_delta_raises _ Hp). reflexivity.
Qed.

Lemma classic_representable : representable c r s \/ ~ representable c r s.
Proof.
  unfold representable.
  destruct (Req_dec_T (last_timestamp s) 0) as [E | E]; [left; tauto |].
  destruct (Rle_dec (growth_of c r s) float_max) as [H | H]; [left | right]; tauto.
Qed.

(** When the growth factor is representable and the time delta printable
    the iteration returns. *)
Lemma tick_step :
  printable c r s -> representable c r s -> tick c r s = Ok (step c r s).
Proof.
  intros Hp Hg. rewrite tick_eq. unfold printable in Hp.
  rewrite (pretty_delta_ok _ Hp).
  destruct (Req_dec_T (last_timestamp s) 0) as [E | E].
  - now rewrite Reqb_true.
  - rewrite Reqb_false, float_range_ok by auto. reflexivity.
Qed.

(** Otherwise it raises, in [pow] or in [pretty_delta]. *)
Lemma tick_overflow : ~ printable c r s -> tick c r s = Raise OverflowError.
Proof.
  intros Hp. rewrite tick_eq. unfold printable in Hp.
  rewrite (pretty_delta_raises _ Hp).
  destruct (Reqb (last_timestamp s) 0); [reflexivity |].
  unfold float_range. destruct (Rgtb (growth_of c r s) float_max); reflexivity.
Qed.

Lemma tick_overflow_pow :
  ~ representable c r s -> tick c r s = Raise OverflowError.
Proof.
  intros Hg. rewrite tick_eq. unfold representable in Hg.
  destruct (Req_dec_T (last_timestamp s) 0) as [E | E]; [tauto |].
  rewrite Reqb_false by assumption.
  rewrite float_range_raises; [reflexivity |].
  destruct (Rle_dec (growth_of c r s) float_max); [tauto | lra].
Qed.

(** An iteration that returns is [step]. *)
Lemma tick_inv (x : State * Tick) :
  tick c r s = Ok x -> x = step c r s /\ printable c r s.
Proof.
  intros H. destruct (classic_printable (delta_of c r s)) as [Hp | Hp].
  - destruct classic_representable as [Hg | Hg].
    + rewrite (tick_step Hp Hg) in H. injection H as <-.
      split; [reflexivity | exact Hp].
    + rewrite (tick_overflow_pow Hg) in H. discriminate.
  - rewrite (tick_overflow Hp) in H. discriminate.
Qed.

Lemma tick_inv_range (x : State * Tick) :
  tick c r s = Ok x -> representable c r s.
Proof.
  intros H. destruct classic_representable as [Hg | Hg]; [assumption |].
  rewrite (tick_overflow_pow Hg) in H. discriminate.
Qed.

(** A bootstrap iteration computes no growth factor. *)
Lemma representable_boot : last_timestamp s = 0 -> representable c r s.
Proof. intros E Hne. contradiction. Qed.

(** With a fee of at most one half, a growth factor over at most a
    thousand fee periods is representable. *)
Lemma representable_intro :
  inflation_rate c <= 2 ->
  delta_of c r s <= 1000 * IZR (mgmt_fee_period c) ->
  representable c r s.
Proof.
  intros Hrate Hd _. pose proof (period_pos c Hacc) as HP.
  pose proof (rate_ge_1 c Hacc) as H1.
  unfold growth_of.
  assert (Hq : delta_of c r s / IZR (mgmt_fee_period c) <= 1000).
  { apply Rmult_le_reg_r with (IZR (mgmt_fee_period c)); [assumption |].
    unfold Rdiv. rewrite Rmult_assoc, Rinv_l by lra. lra. }
  apply Rpower_small; [split |]; assumption.
Qed.

(** The invariant is kept. *)
Lemma step_ok : state_ok c (fst (step c r s)).
Proof.
  pose proof snapped_ge_last as Hge.
  pose proof branch_mint_shares as Hsh.
  destruct Hok as [H0 Hord Hper Hs Hf Hb].
  unfold step, next_state. cbn [fst].
  constructor; cbn [last_timestamp this_timestamp fund_shares tx_fees mint].
  - destruct (negb _ || _); lra.
  - destruct (negb _ || _); lra.
  - destruct (negb (br_skipped (branch_of c r s)) || br_new_period (branch_of c r s)) eqn:E;
      [reflexivity |].
    apply orb_false_elim in E as [E1 E2].
    revert E1 E2. unfold branch_of.
    destruct (Reqb (last_timestamp s) 0); [discriminate |].
    destruct (throttled c r s); cbn; [| discriminate].
    intros _ E2. unfold snapped. rewrite E2. now apply crosses_false.
  - assumption.
  - unfold branch_of. destruct (Reqb (last_timestamp s) 0); cbn; [assumption |].
    destruct (throttled c r s); cbn; [assumption |].
    unfold this_tx_fee, stroop_per_xlm, xlm_price, stroop_per_tx. lra.
  - unfold branch_of.
    destruct (Req_dec_T (last_timestamp s) 0) as [E | E].
    + rewrite Reqb_true by assumption. cbn. intros _. now apply Hb.
    + rewrite Reqb_false by assumption.
      destruct (throttled c r s); cbn; [reflexivity |].
      destruct (crosses c r s); cbn; intros; lra.
Qed.
End Step.

Lemma reachable_ok (c : Config) (s : State) :
  accepted c -> reachable c s -> state_ok c s.
Proof.
  intros Hacc H. induction H as [| s s' r o Hreach IH Hloop [Hr _] Ht].
  - apply init_state_ok.
  - destruct (tick_inv c Hacc s IH r Hr _ Ht) as [E _].
    replace s' with (fst (step c r s)) by (now rewrite <- E).
    now apply step_ok.
Qed.

(** ** Runs *)

Lemma run_nil (c : Config) (s : State) : run c [] s = Ok (s, []).
Proof. reflexivity. Qed.

Lemma run_stop (c : Config) (r : R) (rs : list R) (s : State) :
  loop_cond c s = false -> run c (r :: rs) s = Ok (s, []).
Proof. intros H. simpl. now rewrite H. Qed.

Lemma run_cons (c : Config) (r : R) (rs : list R) (s : State) :
  accepted c -> state_ok c s -> -1 <= r ->
  printable c r s -> representable c r s ->
  loop_cond c s = true ->
  run c (r :: rs) s =
  (rest <- run c rs (fst (step c r s)) ;;
   Ok (fst rest, snd (step c r s) :: snd rest)).
Proof.
  intros Hacc Hok Hr Hp Hg Hl. simpl. rewrite Hl.
  rewrite (tick_step c Hacc s Hok r Hr Hp Hg). reflexivity.
Qed.

(** Case analysis on a run that produced a result. *)
Lemma run_inv (c : Config) (r : R) (rs : list R) (s sf : State) (os : list Tick) :
  accepted c -> state_ok c s -> -1 <= r ->
  run c (r :: rs) s = Ok (sf, os) ->
  (loop_cond c s = false /\ sf = s /\ os = []) \/
  (loop_cond c s = true /\
   exists os', run c rs (fst (step c r s)) = Ok (sf, os') /\
               os = snd (step c r s) :: os').
Proof.
  intros Hacc Hok Hr H. destruct (loop_cond c s) eqn:Hl.
  - right. split; [reflexivity |].
    destruct (classic_printable (delta_of c r s)) as [Hp | Hp];
      [destruct (classic_representable c s r) as [Hg | Hg] |].
    + rewrite run_cons in H by assumption.
      destruct (run c rs (fst (step c r s))) as [[sf' os'] |]; cbn in H; [| discriminate].
      injection H as <- <-. eauto.
    + simpl in H. rewrite Hl, (tick_overflow_pow c Hacc s Hok r Hr Hg) in H.
      discriminate.
    + simpl in H. rewrite Hl, (tick_overflow c Hacc s Hok r Hr Hp) in H.
      discriminate.
  - left. rewrite run_stop in H by assumption. injection H as <- <-. auto.
Qed.

(** A run that reports [l1 ++ l2] is a run that reports [l1] followed by a
    run that reports [l2]. *)
Lemma run_app_inv (c : Config) (l1 l2 : list Tick) :
  forall (rs : list R) (s sf : State),
    run c rs s = Ok (sf, l1 ++ l2) ->
    exists rs1 rs2 sm,
      rs = rs1 ++ rs2 /\
      run c rs1 s = Ok (sm, l1) /\ run c rs2 sm = Ok (sf, l2).
Proof.
  induction l1 as [| o l1 IH]; intros rs s sf Hrun.
  - exists [], rs, s. auto.
  - destruct rs as [| r rs]; [discriminate |].
    simpl in Hrun. destruct (loop_cond c s) eqn:Hl; [| discriminate].
    destruct (tick c r s) as [[s1 o'] |] eqn:Et; cbn in Hrun; [| discriminate].
    destruct (run c rs s1) as [[sf' os'] |] eqn:Er; cbn in Hrun; [| discriminate].
    injection Hrun as -> -> ->.
    destruct (IH _ _ _ Er) as (rs1 & rs2 & sm & -> & R1 & R2).
    exists (r :: rs1), rs2, sm. split; [reflexivity |]. split; [| assumption].
    simpl. rewrite Hl, Et. cbn. rewrite R1. reflexivity.
Qed.

Lemma run_ok (c : Config) (rs : list R) :
  accepted c -> Forall valid_draw rs ->
  forall (s sf : State) (os : list Tick),
    state_ok c s -> run c rs s = Ok (sf, os) -> state_ok c sf.
Proof.
  intros Hacc. induction 1 as [| r rs [Hr _] _ IH]; intros s sf os Hok Hrun.
  - now injection Hrun as <- _.
  - destruct (run_inv c r rs s sf os Hacc Hok Hr Hrun)
      as [(_ & -> & _) | (_ & os' & Hrun' & _)]; [assumption |].
    exact (IH _ _ _ (step_ok c Hacc s Hok r Hr) Hrun').
Qed.

(** A run that reports at least one iteration took it from its first
    state. *)
Lemma run_cons_inv (c : Config) (rs : list R) (s sf : State) (o : Tick)
      (os : list Tick) :
  run c rs s = Ok (sf, o :: os) ->
  exists r rs' s1,
    rs = r :: rs' /\ loop_cond c s = true /\
    tick c r s = Ok (s1, o) /\ run c rs' s1 = Ok (sf, os).
Proof.
  destruct rs as [| r rs]; [discriminate |].
  simpl. destruct (loop_cond c s) eqn:Hl; [| discriminate].
  destruct (tick c r s) as [[s1 o'] |] eqn:Et; cbn; [| discriminate].
  destruct (run c rs s1) as [[sf' os'] |] eqn:Er; cbn; [| discriminate].
  intros [= -> -> ->]. exists r, rs, s1. auto.
Qed.

(** ** The bootstrap iteration *)

(** C8 (amended).  For every accepted configuration and every draw for
    which the first drifted time delta is printable (its whole seconds lie
    in [0, 3652059 days), as they do for every drift from -1 up to any
    ordinary value), the first iteration of the loop (previous committed
    clock 0) returns, mints exactly 0 shares, is flagged [new_period], is
    not skipped and charges no fee, commits its clock as the last committed
    clock, and prints a summary that shows zero mints (the START marker). *)
Theorem bootstrap_tick (a : Args) (c : Config) (r : R) :
  startup a = Ok c ->
  valid_draw r ->
  printable c r init_state ->
  exists s' o sm,
    tick c r init_state = Ok (s', o) /\
    bootstrap o = true /\
    applied o = 0 /\ fund_shares s' = init_shares /\
    new_period o = true /\
    skipped o = false /\ tx_fees s' = 0 /\ usd_per_day o = 0 /\
    last_timestamp s' = clock o /\ this_timestamp s' = clock o /\
    summary o = Some sm /\
    sum_mints sm = 0%Z /\ sum_start sm = true /\ sum_skips sm = 0%Z /\
    display_time sm = 0.
Proof.
  intros Hs [Hr _] Hp.
  apply startup_accepted in Hs as [Hacc _].
  rewrite (tick_step c Hacc init_state (init_state_ok c) r Hr Hp
             (representable_boot c init_state r eq_refl)).
  unfold step, next_state, report, summary_of, branch_of.
  cbn [last_timestamp init_state].
  rewrite Reqb_true by reflexivity. cbn.
  eexists _, _, _. split; [reflexivity |]. cbn.
  repeat split; try reflexivity.
  unfold init_shares; lra.
Qed.

(** ** Monotonicity of the clock *)

(** C9.  For every accepted configuration, from every state the loop can
    reach (whether or not the previous iteration was skipped) and for every
    draw, the final clock of the iteration, after any boundary snap, is not
    smaller than the clock the previous iteration left. *)
Theorem clock_monotone (a : Args) (c : Config) (s s' : State) (r : R)
        (o : Tick) :
  startup a = Ok c ->
  reachable c s ->
  valid_draw r ->
  tick c r s = Ok (s', o) ->
  this_timestamp s' = clock o /\
  this_timestamp s <= this_timestamp s'.
Proof.
  intros Hs Hreach [Hr _] Ht.
  apply startup_accepted in Hs as [Hacc _].
  pose proof (reachable_ok c s Hacc Hreach) as Hok.
  destruct (tick_inv c Hacc s Hok r Hr _ Ht) as [E _].
  injection E as -> ->.
  split; [reflexivity |].
  now apply snapped_ge_this.
Qed.

(** ** The three outcomes of the branch, and evaluating an iteration *)

Lemma branch_bootstrap (c : Config) (r : R) (s : State) :
  last_timestamp s = 0 ->
  branch_of c r s =
  mkBranch true false 0 (last_timestamp s) None (mint s) (mint s)
           (tx_fees s) (num_mints s) (num_skips s).
Proof. intros H. unfold branch_of. now rewrite Reqb_true. Qed.

Lemma branch_skip (c : Config) (r : R) (s : State) :
  last_timestamp s <> 0 ->
  fee_tolerance c < rate_of c r s ->
  branch_of c r s =
  mkBranch (crosses c r s) true (rate_of c r s) (snapped c r s)
           (Some (growth_of c r s))
           (fund_shares s * (growth_of c r s - 1)) 0
           (tx_fees s) (num_mints s) (num_skips s + 1)%Z.
Proof.
  intros H Ht. unfold branch_of, throttled.
  rewrite Reqb_false by assumption. now rewrite Rgtb_true.
Qed.

Lemma branch_commit (c : Config) (r : R) (s : State) :
  last_timestamp s <> 0 ->
  rate_of c r s <= fee_tolerance c ->
  branch_of c r s =
  mkBranch (crosses c r s) false (rate_of c r s) (snapped c r s)
           (Some (growth_of c r s))
           (fund_shares s * (growth_of c r s - 1))
           (fund_shares s * (growth_of c r s - 1))
           (tx_fees s + this_tx_fee) (num_mints s + 1)%Z (num_skips s).
Proof.
  intros H Ht. unfold branch_of, throttled.
  rewrite Reqb_false by assumption. now rewrite Rgtb_false.
Qed.

Lemma period_of_eq (c : Config) (t : R) (k : Z) :
  (0 < mgmt_fee_period c)%Z -> (0 <= k)%Z ->
  IZR k * IZR (mgmt_fee_period c) <= t < (IZR k + 1) * IZR (mgmt_fee_period c) ->
  period_of c t = k.
Proof.
  intros HP Hk [Hl Hu]. pose proof (P_pos c HP) as HP'.
  assert (0 <= IZR k) by now apply IZR_le.
  assert (0 <= t) by nra.
  unfold period_of. apply py_int_eq.
  - split.
    + apply Rmult_le_reg_r with (IZR (mgmt_fee_period c)); [assumption |].
      unfold Rdiv. rewrite Rmult_assoc, Rinv_l by lra. lra.
    + apply Rmult_lt_reg_r with (IZR (mgmt_fee_period c)); [assumption |].
      unfold Rdiv. rewrite Rmult_assoc, Rinv_l by lra. lra.
  - apply Rmult_le_pos; [assumption |]. left. now apply Rinv_0_lt_compat.
Qed.

(** The boundary check when the proposed clock stays in the period of the
    last committed clock. *)
Lemma stay_eval (c : Config) (r : R) (s : State) (k : Z) :
  (0 < mgmt_fee_period c)%Z -> (0 <= k)%Z ->
  IZR k * IZR (mgmt_fee_period c) <= last_timestamp s
    < (IZR k + 1) * IZR (mgmt_fee_period c) ->
  IZR k * IZR (mgmt_fee_period c) <= proposed c r s
    < (IZR k + 1) * IZR (mgmt_fee_period c) ->
  period_of c (last_timestamp s) = k /\
  period_of c (proposed c r s) = k /\
  crosses c r s = false /\ snapped c r s = proposed c r s.
Proof.
  intros HP Hk Hl Hp.
  pose proof (period_of_eq c _ k HP Hk Hl) as E1.
  pose proof (period_of_eq c _ k HP Hk Hp) as E2.
  assert (E3 : crosses c r s = false)
    by (unfold crosses; rewrite E1, E2; apply Z.ltb_irrefl).
  repeat split; try assumption. unfold snapped. now rewrite E3.
Qed.

(** The boundary check when the proposed clock lands in a later period. *)
Lemma cross_eval (c : Config) (r : R) (s : State) (k j : Z) :
  (0 < mgmt_fee_period c)%Z -> (0 <= k < j)%Z ->
  IZR k * IZR (mgmt_fee_period c) <= last_timestamp s
    < (IZR k + 1) * IZR (mgmt_fee_period c) ->
  IZR j * IZR (mgmt_fee_period c) <= proposed c r s
    < (IZR j + 1) * IZR (mgmt_fee_period c) ->
  period_of c (last_timestamp s) = k /\
  period_of c (proposed c r s) = j /\
  crosses c r s = true /\
  snapped c r s = IZR j * IZR (mgmt_fee_period c).
Proof.
  intros HP Hk Hl Hp.
  pose proof (period_of_eq c _ k HP ltac:(lia) Hl) as E1.
  pose proof (period_of_eq c _ j HP ltac:(lia) Hp) as E2.
  assert (E3 : crosses c r s = true)
    by (unfold crosses; rewrite E1, E2; apply Z.ltb_lt; lia).
  repeat split; try assumption.
  unfold snapped. rewrite E3, E2. apply mult_IZR.
Qed.

(** ** Monotonicity of the share count and of the fees *)

Lemma fee_pos : 0 < this_tx_fee.
Proof. unfold this_tx_fee, stroop_per_xlm, xlm_price, stroop_per_tx. lra. Qed.

Lemma this_tx_fee_value : this_tx_fee = 45 / 10000.
Proof. unfold this_tx_fee, stroop_per_xlm, xlm_price, stroop_per_tx. lra. Qed.

Lemma step_fees_mono (c : Config) (r : R) (s : State) :
  tx_fees s <= tx_fees (fst (step c r s)).
Proof.
  pose proof fee_pos. unfold step, next_state, branch_of. cbn.
  destruct (Reqb (last_timestamp s) 0); cbn; [lra |].
  destruct (throttled c r s); cbn; lra.
Qed.

Lemma step_shares_mono (c : Config) (r : R) (s : State) :
  accepted c -> state_ok c s -> -1 <= r -> -1 <= clock_drift c ->
  fund_shares s <= fund_shares (fst (step c r s)).
Proof.
  intros Hacc Hok Hr Hd.
  pose proof (growth_ge_1 c Hacc s Hok r Hr Hd) as Hg.
  destruct Hok as [_ _ _ Hs _ Hb].
  unfold step, next_state, branch_of. cbn.
  destruct (Req_dec_T (last_timestamp s) 0) as [E | E].
  - rewrite Reqb_true by assumption. cbn. rewrite (Hb E). lra.
  - rewrite Reqb_false by assumption.
    destruct (throttled c r s); cbn; [lra | nra].
Qed.

Lemma reachable_shares (c : Config) (s : State) :
  accepted c -> -1 <= clock_drift c -> reachable c s ->
  init_shares <= fund_shares s.
Proof.
  intros Hacc Hd H. induction H as [| s s' r o Hreach IH Hloop [Hr _] Ht].
  - simpl. lra.
  - pose proof (reachable_ok c s Hacc Hreach) as Hok.
    destruct (tick_inv c Hacc s Hok r Hr _ Ht) as [E _].
    replace s' with (fst (step c r s)) by (now rewrite <- E).
    apply Rle_trans with (fund_shares s); [exact IH |].
    exact (step_shares_mono c r s Hacc Hok Hr Hd).
Qed.

(** C4 (amended).  For every accepted configuration whose clock drift is
    at least -1, every iteration taken from a reachable state leaves
    [fund_shares] and [tx_fees] no smaller than they were, and
    [fund_shares] stays at or above [init_shares]. *)
Theorem shares_fees_monotone (a : Args) (c : Config) (s s' : State) (r : R)
        (o : Tick) :
  startup a = Ok c ->
  -1 <= clock_drift c ->
  reachable c s ->
  valid_draw r ->
  tick c r s = Ok (s', o) ->
  fund_shares s <= fund_shares s' /\
  tx_fees s <= tx_fees s' /\
  init_shares <= fund_shares s'.
Proof.
  intros Hs Hd Hreach [Hr _] Ht.
  apply startup_accepted in Hs as [Hacc _].
  pose proof (reachable_ok c s Hacc Hreach) as Hok.
  pose proof (reachable_shares c s Hacc Hd Hreach) as Hinit.
  pose proof (step_shares_mono c r s Hacc Hok Hr Hd) as Hm.
  pose proof (step_fees_mono c r s) as Hf.
  destruct (tick_inv c Hacc s Hok r Hr _ Ht) as [E _].
  replace s' with (fst (step c r s)) by (now rewrite <- E).
  split; [assumption |]. split; [assumption | lra].
Qed.

(** ** Fee-period boundaries *)

Section Boundary.
Variable c : Config.
Hypothesis Hacc : accepted c.
Variable s : State.
Hypothesis Hok : state_ok c s.
Variable r : R.
Hypothesis Hr : -1 <= r.

Lemma branch_new_period :
  br_new_period (branch_of c r s) = Reqb (last_timestamp s) 0 || crosses c r s.
Proof.
  unfold branch_of. destruct (Reqb (last_timestamp s) 0); [reflexivity |].
  destruct (throttled c r s); reflexivity.
Qed.

Lemma branch_skipped :
  br_skipped (branch_of c r s) = negb (Reqb (last_timestamp s) 0) && throttled c r s.
Proof.
  unfold branch_of. destruct (Reqb (last_timestamp s) 0); [reflexivity |].
  destruct (throttled c r s); reflexivity.
Qed.

(** A crossing iteration is flagged, sits on a multiple of the period and
    commits its clock, throttled or not. *)
Lemma step_cross :
  crosses c r s = true ->
  new_period (snd (step c r s)) = true /\
  clock (snd (step c r s))
  = IZR (this_period (snd (step c r s)) * mgmt_fee_period c) /\
  last_timestamp (fst (step c r s)) = clock (snd (step c r s)) /\
  period_of c (last_timestamp (fst (step c r s))) = period_of c (proposed c r s).
Proof.
  intros E. unfold step, next_state, report. cbn.
  rewrite branch_new_period, E, !orb_true_r.
  repeat split.
  - unfold snapped. now rewrite E.
  - rewrite <- (snapped_period c Hacc s Hok r Hr). reflexivity.
Qed.

(** An iteration that does not cross leaves the committed clock in its
    fee period. *)
Lemma step_stay :
  crosses c r s = false ->
  period_of c (proposed c r s) = period_of c (last_timestamp s) /\
  period_of c (last_timestamp (fst (step c r s))) = period_of c (last_timestamp s).
Proof.
  intros E. pose proof (crosses_false c Hacc s Hok r Hr E) as Hp.
  split; [assumption |].
  unfold step, next_state. cbn.
  destruct (negb _ || _); [| reflexivity].
  unfold snapped. now rewrite E.
Qed.
End Boundary.

Lemma run_boundaries (c : Config) (rs : list R) :
  accepted c -> Forall valid_draw rs ->
  forall (s sf : State) (os : list Tick),
    state_ok c s ->
    run c rs s = Ok (sf, os) ->
    state_ok c sf /\
    (period_of c (last_timestamp s) <= period_of c (last_timestamp sf))%Z /\
    Forall (fun o => (period_of c (last_timestamp s) <= last_period o)%Z) os /\
    forall j : Z,
      (period_of c (last_timestamp s) < j <= period_of c (last_timestamp sf))%Z ->
      exists before o after,
        os = before ++ o :: after /\
        crosses_boundary j o /\
        new_period o = true /\
        clock o = IZR (this_period o * mgmt_fee_period c) /\
        Forall (fun o' => ~ crosses_boundary j o') before /\
        Forall (fun o' => ~ crosses_boundary j o') after.
Proof.
  intros Hacc. induction 1 as [| r rs [Hr _] _ IH]; intros s sf os Hok Hrun.
  - injection Hrun as <- <-.
    split; [assumption |]. split; [lia |]. split; [constructor |].
    intros j Hj. lia.
  - destruct (run_inv c r rs s sf os Hacc Hok Hr Hrun)
      as [(_ & -> & ->) | (_ & os' & Hrun' & ->)].
    + split; [assumption |]. split; [lia |]. split; [constructor |].
      intros j Hj. lia.
    + pose proof (step_ok c Hacc s Hok r Hr) as Hok1.
      destruct (IH _ _ _ Hok1 Hrun') as (Hokf & Hle & Hall & Hex).
      assert (Hshape :
        last_period (snd (step c r s)) = period_of c (last_timestamp s) /\
        this_period (snd (step c r s)) = period_of c (proposed c r s))
        by (split; reflexivity).
      destruct Hshape as [Elp Etp].
      destruct (crosses c r s) eqn:Ecr.
      * destruct (step_cross c Hacc s Hok r Hr Ecr) as (Hnp & Hclk & _ & Hper).
        pose proof (crosses_true c s r Ecr) as Hlt.
        split; [assumption |]. split; [lia |].
        split.
        { constructor; [rewrite Elp; lia |].
          eapply Forall_impl; [| exact Hall]. intros o Ho. cbn beta in Ho |- *. lia. }
        intros j Hj.
        destruct (Z_le_gt_dec j (period_of c (proposed c r s))) as [Hjle | Hjgt].
        -- exists [], (snd (step c r s)), os'.
           repeat split; try assumption; try constructor.
           ++ rewrite Elp. lia.
           ++ eapply Forall_impl; [| exact Hall].
              unfold crosses_boundary. intros o Ho. cbn beta in Ho |- *. lia.
        -- destruct (Hex j ltac:(lia)) as (bf & o & af & -> & Hc & Hn & Hk & Hb & Ha).
           exists (snd (step c r s) :: bf), o, af.
           repeat split; try assumption; try apply Hc.
           constructor; [| assumption].
           unfold crosses_boundary. rewrite Etp. lia.
      * destruct (step_stay c Hacc s Hok r Hr Ecr) as (Hp & Hper).
        split; [assumption |]. split; [lia |].
        split.
        { constructor; [rewrite Elp; lia |].
          eapply Forall_impl; [| exact Hall]. intros o Ho. cbn beta in Ho |- *. lia. }
        intros j Hj.
        destruct (Hex j ltac:(lia)) as (bf & o & af & -> & Hc & Hn & Hk & Hb & Ha).
        exists (snd (step c r s) :: bf), o, af.
        repeat split; try assumption; try apply Hc.
        constructor; [| assumption].
        unfold crosses_boundary. rewrite Etp. lia.
Qed.

(** Whatever holds of every iteration taken from a state the loop can be
    in holds of every iteration of a run. *)
Lemma run_Forall (c : Config) (Q : Tick -> Prop) (rs : list R) :
  accepted c ->
  (forall s r, state_ok c s -> -1 <= r -> Q (snd (step c r s))) ->
  Forall valid_draw rs ->
  forall (s sf : State) (os : list Tick),
    state_ok c s -> run c rs s = Ok (sf, os) -> Forall Q os.
Proof.
  intros Hacc HQ. induction 1 as [| r rs [Hr _] _ IH]; intros s sf os Hok Hrun.
  - injection Hrun as <- <-. constructor.
  - destruct (run_inv c r rs s sf os Hacc Hok Hr Hrun)
      as [(_ & -> & ->) | (_ & os' & Hrun' & ->)]; [constructor |].
    constructor; [now apply HQ |].
    exact (IH _ _ _ (step_ok c Hacc s Hok r Hr) Hrun').
Qed.

(** The flag of an iteration: set by the bootstrap branch (line 137) and
    by the boundary check (line 126), and by nothing else. *)
Lemma run_flags (c : Config) (rs : list R) :
  accepted c -> Forall valid_draw rs ->
  forall (s sf : State) (os : list Tick),
    state_ok c s -> run c rs s = Ok (sf, os) ->
    Forall (fun o => new_period o = bootstrap o || crossed o /\
                     crossed o = (last_period o <? this_period o)%Z) os.
Proof.
  intros Hacc Hrs. apply run_Forall; try assumption.
  intros s r Hok Hr. split; [| reflexivity].
  unfold step, report. cbn [snd new_period bootstrap crossed].
  apply branch_new_period.
Qed.

(** No iteration of a run is in a fee period beyond the one the run ends
    in. *)
Lemma run_periods (c : Config) (rs : list R) :
  accepted c -> Forall valid_draw rs ->
  forall (s sf : State) (os : list Tick),
    state_ok c s -> run c rs s = Ok (sf, os) ->
    Forall (fun o => (this_period o <= period_of c (last_timestamp sf))%Z) os.
Proof.
  intros Hacc. induction 1 as [| r rs [Hr Hr2] Hrs IH]; intros s sf os Hok Hrun.
  - injection Hrun as <- <-. constructor.
  - destruct (run_inv c r rs s sf os Hacc Hok Hr Hrun)
      as [(_ & -> & ->) | (_ & os' & Hrun' & ->)]; [constructor |].
    pose proof (step_ok c Hacc s Hok r Hr) as Hok1.
    constructor; [| exact (IH _ _ _ Hok1 Hrun')].
    destruct (run_boundaries c rs Hacc Hrs _ _ _ Hok1 Hrun') as (_ & Hle & _).
    change (this_period (snd (step c r s))) with (period_of c (proposed c r s)).
    rewrite <- (snapped_period c Hacc s Hok r Hr).
    change (snapped c r s) with (this_timestamp (fst (step c r s))).
    rewrite (ok_period c _ Hok1). exact Hle.
Qed.

(** C6.  For every accepted configuration and every run: each fee-period
    boundary [j] the clock has crossed is crossed by exactly one iteration
    of the run; that iteration has [new_period = true], its clock is
    snapped to [this_period * mgmt_fee_period], an integer multiple of the
    fee period, and the state it leaves holds that clock both as the clock
    and as the last committed clock, from which the run goes on; and every
    iteration after the bootstrap that has [new_period = true] is such a
    crossing iteration. *)
Theorem boundary_forcing (a : Args) (c : Config) (rs : list R)
        (sf : State) (os : list Tick) :
  startup a = Ok c ->
  Forall valid_draw rs ->
  run c rs init_state = Ok (sf, os) ->
  (forall j : Z,
     (0 < j <= period_of c (this_timestamp sf))%Z ->
     exists rs1 r rs2 s1 s2 before o after,
       rs = rs1 ++ r :: rs2 /\ os = before ++ o :: after /\
       run c rs1 init_state = Ok (s1, before) /\
       tick c r s1 = Ok (s2, o) /\
       run c rs2 s2 = Ok (sf, after) /\
       crosses_boundary j o /\
       crossed o = true /\
       new_period o = true /\
       clock o = IZR (this_period o * mgmt_fee_period c) /\
       this_timestamp s2 = clock o /\
       last_timestamp s2 = clock o /\
       Forall (fun o' => ~ crosses_boundary j o') before /\
       Forall (fun o' => ~ crosses_boundary j o') after) /\
  Forall (fun o' =>
            bootstrap o' = false -> new_period o' = true ->
            crossed o' = true /\
            exists j' : Z,
              (0 < j' <= period_of c (this_timestamp sf))%Z /\
              crosses_boundary j' o') os.
Proof.
  intros Hs Hrs Hrun.
  apply startup_accepted in Hs as [Hacc _].
  pose proof (init_state_ok c) as Hok0.
  destruct (run_boundaries c rs Hacc Hrs _ _ _ Hok0 Hrun)
    as (Hokf & _ & Hlow & Hex).
  assert (E0 : period_of c (last_timestamp init_state) = 0%Z).
  { cbn. apply (period_of_multiple c (acc_period c Hacc) 0). lia. }
  rewrite E0 in Hlow, Hex. rewrite (ok_period c sf Hokf).
  split.
  - intros j Hj.
    destruct (Hex j Hj) as (before & o & after & Eos & Hc & Hn & Hk & Hb & Ha).
    subst os.
    destruct (run_app_inv c before (o :: after) rs _ _ Hrun)
      as (rs1 & rs2 & s1 & -> & R1 & R2).
    destruct (run_cons_inv c rs2 s1 sf o after R2)
      as (r & rs2' & s2 & -> & _ & Ht & R3).
    apply Forall_app in Hrs as [Hrs1 Hrs2].
    inversion Hrs2 as [| x l [Hr _] _]; subst.
    pose proof (run_ok c rs1 Hacc Hrs1 _ _ _ Hok0 R1) as Hok1.
    destruct (tick_inv c Hacc s1 Hok1 r Hr _ Ht) as [E _].
    assert (Es : s2 = fst (step c r s1)) by (now rewrite <- E).
    assert (Eo : o = snd (step c r s1)) by (now rewrite <- E).
    assert (Ecr : crosses c r s1 = true).
    { destruct Hc as [H1 H2]. rewrite Eo in H1, H2.
      unfold crosses. apply Z.ltb_lt.
      change (last_period (snd (step c r s1)))
        with (period_of c (last_timestamp s1)) in H1.
      change (this_period (snd (step c r s1)))
        with (period_of c (proposed c r s1)) in H2.
      lia. }
    destruct (step_cross c Hacc s1 Hok1 r Hr Ecr) as (_ & _ & Hlast & _).
    exists rs1, r, rs2', s1, s2, before, o, after.
    split; [reflexivity |]. split; [reflexivity |].
    split; [exact R1 |]. split; [exact Ht |]. split; [exact R3 |].
    split; [exact Hc |].
    split; [rewrite Eo; exact Ecr |].
    split; [exact Hn |]. split; [exact Hk |].
    split; [rewrite Es, Eo; reflexivity |].
    split; [rewrite Es, Eo; exact Hlast |].
    split; assumption.
  - pose proof (run_flags c rs Hacc Hrs _ _ _ Hok0 Hrun) as Hfl.
    pose proof (run_periods c rs Hacc Hrs _ _ _ Hok0 Hrun) as Hup.
    rewrite Forall_forall in Hfl, Hup, Hlow. apply Forall_forall.
    intros o Ho Hb Hn.
    destruct (Hfl o Ho) as [E1 E2]. specialize (Hlow o Ho). specialize (Hup o Ho).
    rewrite Hb, Hn in E1. cbn in E1. symmetry in E1.
    split; [exact E1 |].
    rewrite E1 in E2. symmetry in E2. apply Z.ltb_lt in E2.
    exists (this_period o). unfold crosses_boundary. cbn beta in Hlow. lia.
Qed.

(** ** The throttle *)

(** C1 (amended).  For every accepted configuration, every
    post-bootstrap iteration that crosses a fee-period boundary is flagged
    [new_period], has its clock snapped to the boundary, makes it the last
    committed clock and prints a summary; and whenever the projected fee
    rate does not exceed the tolerance the iteration is not skipped, the
    candidate mint is added to [fund_shares], the fee is charged and the
    summary counts one more mint. *)
Theorem boundary_tick_commits (a : Args) (c : Config) (s s' : State) (r : R)
        (o : Tick) :
  startup a = Ok c ->
  reachable c s ->
  last_timestamp s <> 0 ->
  valid_draw r ->
  tick c r s = Ok (s', o) ->
  crossed o = true ->
  bootstrap o = false /\ new_period o = true /\
  clock o = IZR (this_period o * mgmt_fee_period c) /\
  last_timestamp s' = clock o /\
  exists sm,
    summary o = Some sm /\
    (usd_per_day o <= fee_tolerance c ->
     skipped o = false /\
     applied o = candidate o /\
     fund_shares s' = fund_shares s + candidate o /\
     tx_fees s' = tx_fees s + this_tx_fee /\
     sum_mints sm = (num_mints s + 1)%Z /\
     sum_skips sm = num_skips s).
Proof.
  intros Hs Hreach Hl [Hr _] Ht Hcr.
  apply startup_accepted in Hs as [Hacc _].
  pose proof (reachable_ok c s Hacc Hreach) as Hok.
  destruct (tick_inv c Hacc s Hok r Hr _ Ht) as [E _].
  injection E as -> ->.
  assert (Ecr : crosses c r s = true) by exact Hcr.
  destruct (step_cross c Hacc s Hok r Hr Ecr) as (Hnp & Hclk & Hlast & _).
  unfold step in *. cbn [fst snd] in *.
  unfold report in Hnp |- *. cbn [new_period] in Hnp.
  unfold summary_of. rewrite Hnp.
  cbn [bootstrap crossed new_period clock summary usd_per_day skipped
       applied candidate this_period].
  split; [now apply Reqb_false |].
  split; [reflexivity |].
  split; [exact Hclk |].
  split; [exact Hlast |].
  eexists. split; [reflexivity |].
  unfold next_state. cbn [fund_shares tx_fees sum_mints sum_skips].
  unfold branch_of, throttled. rewrite Reqb_false by assumption.
  destruct (Rgtb (rate_of c r s) (fee_tolerance c)) eqn:Et;
    cbn [br_usd_per_day br_skipped br_mint br_candidate br_tx_fees
         br_num_mints br_num_skips].
  - intros Hle. apply Rltb_spec in Et. lra.
  - intros _. repeat split; reflexivity.
Qed.

(** C7 (amended).  For every accepted configuration and every
    post-bootstrap iteration: the projected rate is
    [(tx_fees + this_tx_fee) / (clock / 86400)]; if it exceeds the
    tolerance and the iteration crosses no boundary, the applied mint is 0,
    the skip counter grows by one and the fees, the share count and the
    last committed clock are unchanged; if it does not exceed the
    tolerance, the fee is added to the fees, the mint counter grows by one
    (as the state shows it without a boundary, as the summary shows it at a
    boundary, before the reset) and the last committed clock becomes the
    clock of the iteration. *)
Theorem throttle_frame (a : Args) (c : Config) (s s' : State) (r : R)
        (o : Tick) :
  startup a = Ok c ->
  reachable c s ->
  last_timestamp s <> 0 ->
  valid_draw r ->
  tick c r s = Ok (s', o) ->
  bootstrap o = false /\
  this_timestamp s' = clock o /\
  usd_per_day o = (tx_fees s + this_tx_fee) / (clock o / (60 * 60 * 24)) /\
  (fee_tolerance c < usd_per_day o -> crossed o = false ->
   skipped o = true /\
   applied o = 0 /\
   num_skips s' = (num_skips s + 1)%Z /\
   num_mints s' = num_mints s /\
   tx_fees s' = tx_fees s /\
   fund_shares s' = fund_shares s /\
   last_timestamp s' = last_timestamp s) /\
  (usd_per_day o <= fee_tolerance c ->
   skipped o = false /\
   applied o = candidate o /\
   tx_fees s' = tx_fees s + this_tx_fee /\
   last_timestamp s' = clock o /\
   (crossed o = false -> num_mints s' = (num_mints s + 1)%Z) /\
   (crossed o = true ->
    exists sm, summary o = Some sm /\ sum_mints sm = (num_mints s + 1)%Z)).
Proof.
  intros Hs Hreach Hl [Hr _] Ht.
  apply startup_accepted in Hs as [Hacc _].
  pose proof (reachable_ok c s Hacc Hreach) as Hok.
  destruct (tick_inv c Hacc s Hok r Hr _ Ht) as [E _].
  injection E as -> ->.
  unfold next_state, report, summary_of.
  cbn [bootstrap this_timestamp clock usd_per_day crossed skipped applied
       candidate num_skips num_mints tx_fees fund_shares last_timestamp
       summary].
  split; [now apply Reqb_false |].
  split; [reflexivity |].
  unfold branch_of, throttled. rewrite Reqb_false by assumption.
  destruct (Rgtb (rate_of c r s) (fee_tolerance c)) eqn:Et;
    cbn [br_usd_per_day br_skipped br_mint br_candidate br_tx_fees
         br_num_mints br_num_skips br_new_period negb orb].
  - apply Rltb_spec in Et.
    split; [reflexivity |]. split.
    + intros _ Ecr. rewrite Ecr. repeat split; try reflexivity. lra.
    + intros Hle. lra.
  - split; [reflexivity |]. split.
    + intros Hlt. unfold Rgtb in Et.
      rewrite Rltb_true in Et by exact Hlt. discriminate.
    + intros _. repeat split; try reflexivity.
      * intros Ecr. now rewrite Ecr.
      * intros Ecr. rewrite Ecr. eexists. split; reflexivity.
Qed.

(** ** Telescoping of the growth factors *)

Lemma growth_product_app (l1 l2 : list Tick) :
  growth_product (l1 ++ l2) = growth_product l1 * growth_product l2.
Proof.
  induction l1 as [| o l1 IH].
  - change (growth_product l2 = 1 * growth_product l2). lra.
  - change (growth o * growth_product (l1 ++ l2)
            = growth o * growth_product l1 * growth_product l2).
    rewrite IH. lra.
Qed.





(** ** Evaluating an iteration case by case *)

Lemma loop_cond_true (c : Config) (s : State) :
  this_timestamp s <= IZR (mgmt_fee_period c) * 10 -> loop_cond c s = true.
Proof.
  intros H. unfold loop_cond, sim_periods.
  rewrite Rgtb_false; [reflexivity |]. rewrite mult_IZR. exact H.
Qed.

Lemma py_int_range (x : R) (n : Z) :
  (0 < n)%Z -> -1 < x < IZR n -> (0 <= py_int x < n)%Z.
Proof.
  intros Hn [Hl Hu]. unfold py_int.
  destruct (Rlt_dec x 0) as [Hneg | Hpos].
  - rewrite Rltb_true by assumption.
    assert (E : Int_part (- x) = 0%Z)
      by (symmetry; apply Int_part_spec; lra).
    rewrite E. lia.
  - rewrite Rltb_false by lra.
    destruct (base_Int_part x) as [Hb1 Hb2]. split.
    + apply Z.lt_succ_r. apply lt_IZR. rewrite succ_IZR. lra.
    + apply lt_IZR. lra.
Qed.

(** A drifted delta above -1 second and below the span is printable. *)
Lemma printable_intro (c : Config) (r : R) (s : State) :
  -1 < delta_of c r s < IZR datetime_span -> printable c r s.
Proof. apply py_int_range. reflexivity. Qed.

Lemma datetime_span_value : IZR datetime_span = 315537897600.
Proof. reflexivity. Qed.

Lemma reachable_step (c : Config) (s : State) (r : R) :
  accepted c -> reachable c s -> loop_cond c s = true -> valid_draw r ->
  printable c r s -> representable c r s ->
  reachable c (fst (step c r s)).
Proof.
  intros Hacc Hreach Hl Hr Hp Hg.
  apply (reach_tick c s _ r (snd (step c r s)) Hreach Hl Hr).
  rewrite (tick_step c Hacc s (reachable_ok c s Hacc Hreach) r (proj1 Hr) Hp Hg).
  now destruct (step c r s).
Qed.

(** The bootstrap iteration when the first wait stays inside period 0. *)
Lemma bootstrap_fields (c : Config) (r : R) (s : State) :
  (0 < mgmt_fee_period c)%Z ->
  last_timestamp s = 0 ->
  0 <= proposed c r s < IZR (mgmt_fee_period c) ->
  last_timestamp (fst (step c r s)) = proposed c r s /\
  this_timestamp (fst (step c r s)) = proposed c r s /\
  fund_shares (fst (step c r s)) = fund_shares s + mint s /\
  tx_fees (fst (step c r s)) = tx_fees s /\
  bootstrap (snd (step c r s)) = true /\
  crossed (snd (step c r s)) = false /\
  skipped (snd (step c r s)) = false /\
  shares_scalar (snd (step c r s)) = None /\
  clock (snd (step c r s)) = proposed c r s /\
  snapped c r s = proposed c r s.
Proof.
  intros HP Hl Hp.
  destruct (stay_eval c r s 0 HP ltac:(lia)) as (_ & _ & Hc & Hs);
    [rewrite Hl; pose proof (P_pos c HP); lra | lra |].
  unfold step, next_state, report. rewrite branch_bootstrap by assumption.
  cbn. rewrite Hs, Hc. repeat split; try reflexivity.
  now apply Reqb_true.
Qed.

(** A committed iteration that stays inside fee period [k]. *)
Lemma commit_stay_fields (c : Config) (r : R) (s : State) (k : Z) :
  (0 < mgmt_fee_period c)%Z -> (0 <= k)%Z ->
  last_timestamp s <> 0 ->
  IZR k * IZR (mgmt_fee_period c) <= last_timestamp s
    < (IZR k + 1) * IZR (mgmt_fee_period c) ->
  IZR k * IZR (mgmt_fee_period c) <= proposed c r s
    < (IZR k + 1) * IZR (mgmt_fee_period c) ->
  (tx_fees s + this_tx_fee) / (proposed c r s / (60 * 60 * 24))
    <= fee_tolerance c ->
  last_timestamp (fst (step c r s)) = proposed c r s /\
  this_timestamp (fst (step c r s)) = proposed c r s /\
  fund_shares (fst (step c r s))
  = fund_shares s + fund_shares s * (growth_of c r s - 1) /\
  tx_fees (fst (step c r s)) = tx_fees s + this_tx_fee /\
  bootstrap (snd (step c r s)) = false /\
  crossed (snd (step c r s)) = false /\
  skipped (snd (step c r s)) = false /\
  shares_scalar (snd (step c r s)) = Some (growth_of c r s) /\
  clock (snd (step c r s)) = proposed c r s /\
  snapped c r s = proposed c r s.
Proof.
  intros HP Hk Hl Hlast Hp Hrate.
  destruct (stay_eval c r s k HP Hk Hlast Hp) as (_ & _ & Hc & Hs).
  assert (Hr' : rate_of c r s <= fee_tolerance c)
    by (unfold rate_of; now rewrite Hs).
  unfold step, next_state, report. rewrite branch_commit by assumption.
  cbn. rewrite Hs, Hc. repeat split; try reflexivity.
  now apply Reqb_false.
Qed.

(** A committed iteration that moves from fee period [k] into [j]. *)
Lemma commit_cross_fields (c : Config) (r : R) (s : State) (k j : Z) :
  (0 < mgmt_fee_period c)%Z -> (0 <= k < j)%Z ->
  last_timestamp s <> 0 ->
  IZR k * IZR (mgmt_fee_period c) <= last_timestamp s
    < (IZR k + 1) * IZR (mgmt_fee_period c) ->
  IZR j * IZR (mgmt_fee_period c) <= proposed c r s
    < (IZR j + 1) * IZR (mgmt_fee_period c) ->
  (tx_fees s + this_tx_fee)
    / (IZR j * IZR (mgmt_fee_period c) / (60 * 60 * 24))
    <= fee_tolerance c ->
  last_timestamp (fst (step c r s)) = IZR j * IZR (mgmt_fee_period c) /\
  this_timestamp (fst (step c r s)) = IZR j * IZR (mgmt_fee_period c) /\
  fund_shares (fst (step c r s))
  = fund_shares s + fund_shares s * (growth_of c r s - 1) /\
  tx_fees (fst (step c r s)) = tx_fees s + this_tx_fee /\
  bootstrap (snd (step c r s)) = false /\
  crossed (snd (step c r s)) = true /\
  new_period (snd (step c r s)) = true /\
  skipped (snd (step c r s)) = false /\
  this_period (snd (step c r s)) = j /\
  shares_scalar (snd (step c r s)) = Some (growth_of c r s) /\
  clock (snd (step c r s)) = IZR j * IZR (mgmt_fee_period c) /\
  snapped c r s = IZR j * IZR (mgmt_fee_period c).
Proof.
  intros HP Hk Hl Hlast Hp Hrate.
  destruct (cross_eval c r s k j HP Hk Hlast Hp) as (_ & Hj & Hc & Hs).
  assert (Hr' : rate_of c r s <= fee_tolerance c)
    by (unfold rate_of; now rewrite Hs).
  unfold step, next_state, report. rewrite branch_commit by assumption.
  cbn. rewrite Hs, Hc, Hj. repeat split; try reflexivity.
  now apply Reqb_false.
Qed.

(** A throttled iteration that moves from fee period [k] into [j]. *)
Lemma skip_cross_fields (c : Config) (r : R) (s : State) (k j : Z) :
  (0 < mgmt_fee_period c)%Z -> (0 <= k < j)%Z ->
  last_timestamp s <> 0 ->
  IZR k * IZR (mgmt_fee_period c) <= last_timestamp s
    < (IZR k + 1) * IZR (mgmt_fee_period c) ->
  IZR j * IZR (mgmt_fee_period c) <= proposed c r s
    < (IZR j + 1) * IZR (mgmt_fee_period c) ->
  fee_tolerance c
    < (tx_fees s + this_tx_fee)
      / (IZR j * IZR (mgmt_fee_period c) / (60 * 60 * 24)) ->
  last_timestamp (fst (step c r s)) = IZR j * IZR (mgmt_fee_period c) /\
  fund_shares (fst (step c r s)) = fund_shares s + 0 /\
  tx_fees (fst (step c r s)) = tx_fees s /\
  bootstrap (snd (step c r s)) = false /\
  crossed (snd (step c r s)) = true /\
  new_period (snd (step c r s)) = true /\
  skipped (snd (step c r s)) = true /\
  applied (snd (step c r s)) = 0 /\
  candidate (snd (step c r s)) = fund_shares s * (growth_of c r s - 1) /\
  usd_per_day (snd (step c r s))
  = (tx_fees s + this_tx_fee)
    / (IZR j * IZR (mgmt_fee_period c) / (60 * 60 * 24)) /\
  (exists sm, summary (snd (step c r s)) = Some sm /\
              sum_mints sm = num_mints s /\
              sum_skips sm = (num_skips s + 1)%Z) /\
  snapped c r s = IZR j * IZR (mgmt_fee_period c).
Proof.
  intros HP Hk Hl Hlast Hp Hrate.
  destruct (cross_eval c r s k j HP Hk Hlast Hp) as (_ & Hj & Hc & Hs).
  assert (Hr' : fee_tolerance c < rate_of c r s)
    by (unfold rate_of; now rewrite Hs).
  unfold step, next_state, report, summary_of.
  rewrite branch_skip by assumption.
  cbn. unfold rate_of. rewrite Hs, Hc. repeat split; try reflexivity.
  - now apply Reqb_false.
  - eexists. repeat split; reflexivity.
Qed.

(** ** Start-up accepts every valid option set *)

Lemma startup_eval (a : Args) :
  0 <= arg_fee a < 1 ->
  (0 < arg_period a)%Z -> (0 < arg_mint a)%Z ->
  (0 < arg_noise a <= arg_mint a)%Z ->
  startup a =
  Ok (mkConfig (arg_fee a) (1 / (1 - arg_fee a))
        (arg_period a * 60 * 60 * 24) (arg_mint a) (arg_noise a)
        (arg_drift a) (arg_tolerance a)).
Proof.
  intros Hf Hp Hm Hn. unfold startup, percentage, positive_int.
  rewrite Rltb_false, Rgtb_false by lra. cbn.
  destruct (Z.leb_spec (arg_period a) 0); [lia |].
  destruct (Z.leb_spec (arg_mint a) 0); [lia |].
  destruct (Z.leb_spec (arg_noise a) 0); [lia |]. cbn.
  rewrite py_div_ok by lra. cbn.
  destruct (Z.gtb_spec (arg_noise a) (arg_mint a)); [lia | reflexivity].
Qed.

(** ** The run with two mints per fee period, iteration by iteration *)

Lemma startup_half : startup half_args = Ok half_config.
Proof. rewrite startup_eval; [reflexivity | cbn; lra | cbn; lia ..]. Qed.

Lemma half_accepted : accepted half_config.
Proof. exact (proj1 (startup_accepted _ _ startup_half)). Qed.

Lemma half_period : (0 < mgmt_fee_period half_config)%Z.
Proof. cbn. lia. Qed.

Lemma valid_draw_0 : valid_draw 0.
Proof. unfold valid_draw; lra. Qed.

Lemma half_wait : wait_of half_config 0 = 43200.
Proof. unfold wait_of. cbn. lra. Qed.

Lemma half1_fields :
  last_timestamp half1 = 43200 /\ this_timestamp half1 = 43200 /\
  fund_shares half1 = 1000 /\ tx_fees half1 = 0 /\
  bootstrap half_tick1 = true /\ crossed half_tick1 = false /\
  skipped half_tick1 = false /\ shares_scalar half_tick1 = None.
Proof.
  assert (Hp : proposed half_config 0 init_state = 43200)
    by (unfold proposed; rewrite half_wait; cbn; lra).
  destruct (bootstrap_fields half_config 0 init_state half_period eq_refl)
    as (H1 & H2 & H3 & H4 & H5 & H6 & H7 & H8 & _);
    [rewrite Hp; cbn; lra |].
  fold half1 in H1, H2, H3, H4. fold half_tick1 in H5, H6, H7, H8.
  rewrite Hp in H1, H2. cbn [init_state mint fund_shares tx_fees] in H3, H4.
  unfold init_shares in H3.
  repeat split; try assumption; lra.
Qed.

Lemma half_delta1 : delta_of half_config 0 init_state = 43200.
Proof.
  assert (Hp : proposed half_config 0 init_state = 43200)
    by (unfold proposed; rewrite half_wait; cbn; lra).
  destruct (bootstrap_fields half_config 0 init_state half_period eq_refl)
    as (_ & _ & _ & _ & _ & _ & _ & _ & _ & Hs); [rewrite Hp; cbn; lra |].
  unfold delta_of. rewrite Hs, Hp. cbn. lra.
Qed.

Lemma half_printable1 : printable half_config 0 init_state.
Proof.
  apply printable_intro. rewrite half_delta1, datetime_span_value. lra.
Qed.

Lemma half_rate : inflation_rate half_config <= 2.
Proof. cbn. lra. Qed.

Lemma half_representable1 : representable half_config 0 init_state.
Proof. now apply representable_boot. Qed.

Lemma half1_ok : state_ok half_config half1.
Proof. apply step_ok; [apply half_accepted | apply init_state_ok | lra]. Qed.

Lemma half1_reachable : reachable half_config half1.
Proof.
  apply reachable_step;
    [apply half_accepted | apply reach_init | | apply valid_draw_0
     | apply half_printable1 | apply half_representable1].
  apply loop_cond_true. cbn. lra.
Qed.

Lemma half2_fields :
  last_timestamp half2 = 86400 /\ this_timestamp half2 = 86400 /\
  tx_fees half2 = 45 / 10000 /\
  bootstrap half_tick2 = false /\ crossed half_tick2 = true /\
  new_period half_tick2 = true /\
  skipped half_tick2 = false /\ this_period half_tick2 = 1%Z /\
  shares_scalar half_tick2 = Some (Rpower 2 (1 / 2)) /\
  clock half_tick2 = 86400.
Proof.
  destruct half1_fields as (Hl & Ht & _ & Hf & _).
  assert (Hp : proposed half_config 0 half1 = 86400)
    by (unfold proposed; rewrite half_wait, Ht; lra).
  destruct (commit_cross_fields half_config 0 half1 0 1 half_period)
    as (H1 & H2 & _ & H4 & H5 & H6 & H7 & H8 & H9 & H10 & H11 & Hs);
    [lia | rewrite Hl; lra | rewrite Hl; cbn; lra | rewrite Hp; cbn; lra
     | rewrite Hf, this_tx_fee_value; cbn; lra |].
  fold half2 in H1, H2, H4.
  fold half_tick2 in H5, H6, H7, H8, H9, H10, H11.
  assert (Hg : growth_of half_config 0 half1 = Rpower 2 (1 / 2)).
  { unfold growth_of, delta_of. rewrite Hs, Hl. cbn. f_equal; lra. }
  rewrite Hg in H10. rewrite H1, H2, H4, H11, Hf, this_tx_fee_value. cbn.
  repeat split; try assumption; lra.
Qed.

Lemma half_delta2 : delta_of half_config 0 half1 = 43200.
Proof.
  destruct half1_fields as (Hl & Ht & _ & Hf & _).
  assert (Hp : proposed half_config 0 half1 = 86400)
    by (unfold proposed; rewrite half_wait, Ht; lra).
  destruct (commit_cross_fields half_config 0 half1 0 1 half_period)
    as (_ & _ & _ & _ & _ & _ & _ & _ & _ & _ & _ & Hs);
    [lia | rewrite Hl; lra | rewrite Hl; cbn; lra | rewrite Hp; cbn; lra
     | rewrite Hf, this_tx_fee_value; cbn; lra |].
  unfold delta_of. rewrite Hs, Hl. cbn. lra.
Qed.

Lemma half_printable2 : printable half_config 0 half1.
Proof.
  apply printable_intro. rewrite half_delta2, datetime_span_value. lra.
Qed.

Lemma half_representable2 : representable half_config 0 half1.
Proof.
  apply representable_intro;
    [apply half_accepted | apply half_rate | rewrite half_delta2; cbn; lra].
Qed.

Lemma half2_ok : state_ok half_config half2.
Proof. apply step_ok; [apply half_accepted | apply half1_ok | lra]. Qed.

Lemma half2_reachable : reachable half_config half2.
Proof.
  apply reachable_step;
    [apply half_accepted | apply half1_reachable | | apply valid_draw_0
     | apply half_printable2 | apply half_representable2].
  apply loop_cond_true. destruct half1_fields as (_ & -> & _). cbn. lra.
Qed.

Lemma half3_fields :
  last_timestamp half3 = 129600 /\ this_timestamp half3 = 129600 /\
  tx_fees half3 = 90 / 10000 /\
  crossed half_tick3 = false /\ skipped half_tick3 = false /\
  shares_scalar half_tick3 = Some (Rpower 2 (1 / 2)).
Proof.
  destruct half2_fields as (Hl & Ht & Hf & _).
  assert (Hp : proposed half_config 0 half2 = 129600)
    by (unfold proposed; rewrite half_wait, Ht; lra).
  destruct (commit_stay_fields half_config 0 half2 1 half_period)
    as (H1 & H2 & _ & H4 & _ & H6 & H7 & H8 & _ & Hs);
    [lia | rewrite Hl; lra | rewrite Hl; cbn; lra | rewrite Hp; cbn; lra
     | rewrite Hp, Hf, this_tx_fee_value; cbn; lra |].
  fold half3 in H1, H2, H4. fold half_tick3 in H6, H7, H8.
  assert (Hg : growth_of half_config 0 half2 = Rpower 2 (1 / 2)).
  { unfold growth_of, delta_of. rewrite Hs, Hp, Hl. cbn. f_equal; lra. }
  rewrite Hg in H8. rewrite H1, H2, H4, Hp, Hf, this_tx_fee_value.
  repeat split; try assumption; lra.
Qed.

Lemma half_delta3 : delta_of half_config 0 half2 = 43200.
Proof.
  destruct half2_fields as (Hl & Ht & Hf & _).
  assert (Hp : proposed half_config 0 half2 = 129600)
    by (unfold proposed; rewrite half_wait, Ht; lra).
  destruct (commit_stay_fields half_config 0 half2 1 half_period)
    as (_ & _ & _ & _ & _ & _ & _ & _ & _ & Hs);
    [lia | rewrite Hl; lra | rewrite Hl; cbn; lra | rewrite Hp; cbn; lra
     | rewrite Hp, Hf, this_tx_fee_value; cbn; lra |].
  unfold delta_of. rewrite Hs, Hp, Hl. cbn. lra.
Qed.

Lemma half_printable3 : printable half_config 0 half2.
Proof.
  apply printable_intro. rewrite half_delta3, datetime_span_value. lra.
Qed.

Lemma half_representable3 : representable half_config 0 half2.
Proof.
  apply representable_intro;
    [apply half_accepted | apply half_rate | rewrite half_delta3; cbn; lra].
Qed.

Lemma half3_ok : state_ok half_config half3.
Proof. apply step_ok; [apply half_accepted | apply half2_ok | lra]. Qed.

Lemma half4_fields :
  last_timestamp half4 = 172800 /\
  crossed half_tick4 = true /\ skipped half_tick4 = false /\
  this_period half_tick4 = 2%Z /\
  shares_scalar half_tick4 = Some (Rpower 2 (1 / 2)) /\
  clock half_tick4 = IZR (this_period half_tick4 * mgmt_fee_period half_config).
Proof.
  destruct half3_fields as (Hl & Ht & Hf & _).
  assert (Hp : proposed half_config 0 half3 = 172800)
    by (unfold proposed; rewrite half_wait, Ht; lra).
  destruct (commit_cross_fields half_config 0 half3 1 2 half_period)
    as (H1 & _ & _ & _ & _ & H6 & _ & H8 & H9 & H10 & H11 & Hs);
    [lia | rewrite Hl; lra | rewrite Hl; cbn; lra | rewrite Hp; cbn; lra
     | rewrite Hf, this_tx_fee_value; cbn; lra |].
  fold half4 in H1. fold half_tick4 in H6, H8, H9, H10, H11.
  assert (Hg : growth_of half_config 0 half3 = Rpower 2 (1 / 2)).
  { unfold growth_of, delta_of. rewrite Hs, Hl. cbn. f_equal; lra. }
  rewrite Hg in H10. rewrite H1, H9, H11, mult_IZR. cbn.
  repeat split; try assumption; lra.
Qed.

Lemma half_delta4 : delta_of half_config 0 half3 = 43200.
Proof.
  destruct half3_fields as (Hl & Ht & Hf & _).
  assert (Hp : proposed half_config 0 half3 = 172800)
    by (unfold proposed; rewrite half_wait, Ht; lra).
  destruct (commit_cross_fields half_config 0 half3 1 2 half_period)
    as (_ & _ & _ & _ & _ & _ & _ & _ & _ & _ & _ & Hs);
    [lia | rewrite Hl; lra | rewrite Hl; cbn; lra | rewrite Hp; cbn; lra
     | rewrite Hf, this_tx_fee_value; cbn; lra |].
  unfold delta_of. rewrite Hs, Hl. cbn. lra.
Qed.

Lemma half_printable4 : printable half_config 0 half3.
Proof.
  apply printable_intro. rewrite half_delta4, datetime_span_value. lra.
Qed.

Lemma half_representable4 : representable half_config 0 half3.
Proof.
  apply representable_intro;
    [apply half_accepted | apply half_rate | rewrite half_delta4; cbn; lra].
Qed.

(** The first two iterations of the run, as a run of the loop. *)
Lemma half_run_first :
  run half_config [0; 0] init_state = Ok (half2, [half_tick1; half_tick2]).
Proof.
  destruct half1_fields as (_ & Ht1 & _).
  rewrite run_cons;
    [| apply half_accepted | apply init_state_ok | lra | apply half_printable1
     | apply half_representable1
     | apply loop_cond_true; cbn; lra].
  fold half1. rewrite run_cons;
    [| apply half_accepted | apply half1_ok | lra | apply half_printable2
     | apply half_representable2
     | apply loop_cond_true; rewrite Ht1; cbn; lra].
  reflexivity.
Qed.

(** The two iterations of its second fee period, as a run. *)
Lemma half_run_second :
  run half_config [0; 0] half2 = Ok (half4, [half_tick3] ++ [half_tick4]).
Proof.
  destruct half2_fields as (_ & Ht2 & _).
  destruct half3_fields as (_ & Ht3 & _).
  rewrite run_cons;
    [| apply half_accepted | apply half2_ok | lra | apply half_printable3
     | apply half_representable3
     | apply loop_cond_true; rewrite Ht2; cbn; lra].
  fold half3. rewrite run_cons;
    [| apply half_accepted | apply half3_ok | lra | apply half_printable4
     | apply half_representable4
     | apply loop_cond_true; rewrite Ht3; cbn; lra].
  reflexivity.
Qed.



Lemma valid_draws_00 : Forall valid_draw [0; 0].
Proof. constructor; [apply valid_draw_0 |]. constructor; [apply valid_draw_0 | constructor]. Qed.

Lemma half_tick2_eq : tick half_config 0 half1 = Ok (half2, half_tick2).
Proof.
  now rewrite (tick_step _ half_accepted _ half1_ok 0 ltac:(lra)
                 half_printable2 half_representable2).
Qed.

Lemma half_periods :
  period_of half_config 43200 = 0%Z /\ period_of half_config 86400 = 1%Z.
Proof.
  split; apply period_of_eq; try apply half_period; try lia; cbn; lra.
Qed.


Lemma boundary_forcing_witness :
  (exists rs1 r rs2 s1 s2 before o after,
     [0; 0] = rs1 ++ r :: rs2 /\
     [half_tick1; half_tick2] = before ++ o :: after /\
     run half_config rs1 init_state = Ok (s1, before) /\
     tick half_config r s1 = Ok (s2, o) /\
     run half_config rs2 s2 = Ok (half2, after) /\
     crosses_boundary 1 o /\
     crossed o = true /\
     new_period o = true /\
     clock o = IZR (this_period o * mgmt_fee_period half_config) /\
     this_timestamp s2 = clock o /\
     last_timestamp s2 = clock o /\
     Forall (fun o' => ~ crosses_boundary 1 o') before /\
     Forall (fun o' => ~ crosses_boundary 1 o') after) /\
  Forall (fun o' =>
            bootstrap o' = false -> new_period o' = true ->
            crossed o' = true /\
            exists j' : Z,
              (0 < j' <= period_of half_config (this_timestamp half2))%Z /\
              crosses_boundary j' o') [half_tick1; half_tick2].
Proof.
  destruct (boundary_forcing half_args half_config [0; 0] half2
              [half_tick1; half_tick2] startup_half valid_draws_00
              half_run_first) as [H1 H2].
  split; [| exact H2].
  apply H1.
  destruct half2_fields as (_ & -> & _).
  destruct half_periods as (_ & ->). lia.
Defined.

Lemma boundary_tick_commits_witness :
  bootstrap half_tick2 = false /\ new_period half_tick2 = true /\
  clock half_tick2
  = IZR (this_period half_tick2 * mgmt_fee_period half_config) /\
  last_timestamp half2 = clock half_tick2 /\
  exists sm,
    summary half_tick2 = Some sm /\
    (usd_per_day half_tick2 <= fee_tolerance half_config ->
     skipped half_tick2 = false /\
     applied half_tick2 = candidate half_tick2 /\
     fund_shares half2 = fund_shares half1 + candidate half_tick2 /\
     tx_fees half2 = tx_fees half1 + this_tx_fee /\
     sum_mints sm = (num_mints half1 + 1)%Z /\
     sum_skips sm = num_skips half1).
Proof.
  destruct half1_fields as (Hl & _).
  destruct half2_fields as (_ & _ & _ & _ & Hc & _).
  apply (boundary_tick_commits half_args half_config half1 half2 0 half_tick2).
  - apply startup_half.
  - apply half1_reachable.
  - rewrite Hl. lra.
  - apply valid_draw_0.
  - apply half_tick2_eq.
  - exact Hc.
Defined.

(** ** A throttled boundary iteration *)

Lemma Rpower_gt_1 (x y : R) : 1 < x -> 0 < y -> 1 < Rpower x y.
Proof.
  intros Hx Hy. rewrite <- (Rpower_O x) by lra. apply Rpower_lt; lra.
Qed.

(** When one mint period fits in a fee period but two do not, and the fee
    of a single transaction already exceeds the tolerance at the end of
    the first fee period, the second iteration of the run (draws 0) crosses
    the boundary and is throttled. *)
Lemma throttled_boundary (c : Config) :
  accepted c ->
  IZR (mint_period c) < IZR (mgmt_fee_period c) ->
  IZR (mgmt_fee_period c) <= 2 * IZR (mint_period c) ->
  0 < mgmt_fee c ->
  -1 < clock_drift c ->
  inflation_rate c <= 2 ->
  clock_drift c <= 999 ->
  IZR (mgmt_fee_period c) * (1 + clock_drift c) < IZR datetime_span ->
  fee_tolerance c < this_tx_fee / (IZR (mgmt_fee_period c) / (60 * 60 * 24)) ->
  exists s o s' o' sm,
    tick c 0 init_state = Ok (s, o) /\
    reachable c s /\ last_timestamp s <> 0 /\
    tick c 0 s = Ok (s', o') /\
    bootstrap o' = false /\ crossed o' = true /\ new_period o' = true /\
    skipped o' = true /\
    fee_tolerance c < usd_per_day o' /\
    applied o' = 0 /\ 0 < candidate o' /\
    fund_shares s' = fund_shares s /\
    tx_fees s' = tx_fees s /\
    last_timestamp s' = clock o' /\
    summary o' = Some sm /\
    sum_mints sm = num_mints s /\
    sum_skips sm = (num_skips s + 1)%Z.
Proof.
  intros Hacc Hm1 Hm2 Hfee Hd Hrate Hdmax Hspan Htol.
  pose proof (acc_period c Hacc) as HP. pose proof (P_pos c HP) as HP'.
  assert (Hm0 : 0 < IZR (mint_period c)) by (apply IZR_lt; apply Hacc).
  pose proof (init_state_ok c) as Hok0.
  set (s1 := fst (step c 0 init_state)).
  assert (Hp0 : proposed c 0 init_state = IZR (mint_period c))
    by (unfold proposed, wait_of; cbn; lra).
  destruct (bootstrap_fields c 0 init_state HP eq_refl)
    as (L1 & T1 & S1 & F1 & _ & _ & _ & _ & _ & Hs0); [rewrite Hp0; lra |].
  fold s1 in L1, T1, S1, F1. rewrite Hp0 in L1, T1.
  cbn [init_state mint fund_shares tx_fees] in S1, F1.
  assert (Hd1 : 0 < IZR (mint_period c) * (1 + clock_drift c))
    by (apply Rmult_lt_0_compat; lra).
  assert (Hd2 : IZR (mint_period c) * (1 + clock_drift c)
                < IZR (mgmt_fee_period c) * (1 + clock_drift c))
    by (apply Rmult_lt_compat_r; lra).
  assert (Hd3 : 0 < (IZR (mgmt_fee_period c) - IZR (mint_period c))
                    * (1 + clock_drift c))
    by (apply Rmult_lt_0_compat; lra).
  assert (Hpr0 : printable c 0 init_state).
  { apply printable_intro. unfold delta_of. rewrite Hs0, Hp0.
    cbn [last_timestamp init_state]. lra. }
  assert (Hok1 : state_ok c s1) by (apply step_ok; [assumption .. | lra]).
  assert (Hp1 : proposed c 0 s1 = 2 * IZR (mint_period c))
    by (unfold proposed, wait_of; rewrite T1; lra).
  destruct (skip_cross_fields c 0 s1 0 1 HP)
    as (L2 & S2 & F2 & B2 & C2 & N2 & K2 & A2 & D2 & U2 & (sm & M1 & M2 & M3) & Hs);
    [lia | rewrite L1; lra | rewrite L1; cbn; lra | rewrite Hp1; cbn; lra
     | rewrite F1; cbn; rewrite Rplus_0_l, Rmult_1_l; exact Htol |].
  assert (Hpr1 : printable c 0 s1).
  { apply printable_intro. unfold delta_of. rewrite Hs, L1. lra. }
  assert (Hg0 : representable c 0 init_state) by (now apply representable_boot).
  assert (Hg1 : representable c 0 s1).
  { apply representable_intro; try assumption.
    unfold delta_of. rewrite Hs, L1. nra. }
  exists s1, (snd (step c 0 init_state)), (fst (step c 0 s1)),
    (snd (step c 0 s1)), sm.
  split; [now rewrite (tick_step c Hacc _ Hok0 0 ltac:(lra) Hpr0 Hg0) |].
  split.
  { apply reachable_step; try assumption; [constructor | | unfold valid_draw; lra].
    apply loop_cond_true. cbn. lra. }
  split; [rewrite L1; lra |].
  split; [now rewrite (tick_step c Hacc _ Hok1 0 ltac:(lra) Hpr1 Hg1) |].
  repeat (split; [assumption |]).
  split; [rewrite U2, F1; cbn; rewrite Rplus_0_l, Rmult_1_l; exact Htol |].
  split; [assumption |].
  split.
  { rewrite D2, S1. unfold init_shares.
    assert (1 < growth_of c 0 s1).
    { unfold growth_of, delta_of. rewrite Hs, L1.
      apply Rpower_gt_1; [now apply rate_gt_1 |].
      apply Rmult_lt_0_compat; [| now apply Rinv_0_lt_compat].
      cbn. nra. }
    nra. }
  split; [rewrite S2; lra |].
  split; [assumption |].
  split; [now rewrite L2 |].
  repeat split; assumption.
Qed.

(** ** Start-up of the concrete option sets *)

Lemma startup_default : startup default_args = Ok default_config.
Proof. rewrite startup_eval; [reflexivity | cbn; lra | cbn; lia ..]. Qed.

Lemma startup_zero_tolerance : startup zero_tolerance_args = Ok zero_tolerance_config.
Proof. rewrite startup_eval; [reflexivity | cbn; lra | cbn; lia ..]. Qed.

Lemma startup_low_tolerance : startup low_tolerance_args = Ok low_tolerance_config.
Proof. rewrite startup_eval; [reflexivity | cbn; lra | cbn; lia ..]. Qed.

Lemma startup_drift : startup drift_args = Ok drift_config.
Proof. rewrite startup_eval; [reflexivity | cbn; lra | cbn; lia ..]. Qed.

Lemma startup_backward : startup backward_args = Ok backward_config.
Proof. rewrite startup_eval; [reflexivity | cbn; lra | cbn; lia ..]. Qed.

Lemma startup_equal_noise : startup equal_noise_args = Ok equal_noise_config.
Proof. rewrite startup_eval; [reflexivity | cbn; lra | cbn; lia ..]. Qed.

Lemma startup_strict : startup strict_args = Ok strict_config.
Proof. rewrite startup_eval; [reflexivity | cbn; lra | cbn; lia ..]. Qed.

(** ** The first two iterations, inside the first fee period *)

(** When two waits fit in the first fee period, the second iteration of a
    run is a post-bootstrap iteration that crosses no boundary. *)
Lemma two_ticks (c : Config) (r : R) :
  accepted c -> valid_draw r ->
  inflation_rate c <= 2 ->
  -1 < clock_drift c <= 999 ->
  0 < wait_of c r ->
  2 * wait_of c r < IZR (mgmt_fee_period c) ->
  wait_of c r * (1 + clock_drift c) < IZR datetime_span ->
  reachable c (fst (step c r init_state)) /\
  last_timestamp (fst (step c r init_state)) = wait_of c r /\
  tx_fees (fst (step c r init_state)) = 0 /\
  tick c r (fst (step c r init_state))
  = Ok (step c r (fst (step c r init_state))) /\
  crossed (snd (step c r (fst (step c r init_state)))) = false /\
  clock (snd (step c r (fst (step c r init_state)))) = 2 * wait_of c r.
Proof.
  intros Hacc Hr Hrate [Hd1 Hd2] Hw Hfit Hspan.
  pose proof (acc_period c Hacc) as HP. pose proof (P_pos c HP) as HP'.
  pose proof (init_state_ok c) as Hok0.
  set (s1 := fst (step c r init_state)).
  assert (Hp0 : proposed c r init_state = wait_of c r)
    by (unfold proposed; cbn; lra).
  destruct (bootstrap_fields c r init_state HP eq_refl)
    as (L1 & T1 & _ & F1 & _ & _ & _ & _ & _ & Hs0); [rewrite Hp0; lra |].
  fold s1 in L1, T1, F1. rewrite Hp0 in L1, T1.
  cbn [init_state tx_fees] in F1.
  assert (Hpos : 0 < wait_of c r * (1 + clock_drift c))
    by (apply Rmult_lt_0_compat; lra).
  assert (Hpr0 : printable c r init_state).
  { apply printable_intro. unfold delta_of. rewrite Hs0, Hp0.
    cbn [last_timestamp init_state]. lra. }
  assert (Hreach : reachable c s1).
  { apply reachable_step; try assumption;
      [constructor | | now apply representable_boot].
    apply loop_cond_true. cbn. lra. }
  assert (Hok1 : state_ok c s1) by (apply step_ok; [assumption .. | apply Hr]).
  assert (Hp1 : proposed c r s1 = 2 * wait_of c r)
    by (unfold proposed; rewrite T1; lra).
  destruct (stay_eval c r s1 0 HP ltac:(lia)) as (_ & _ & Hc & Hs);
    [rewrite L1; cbn; lra | rewrite Hp1; cbn; lra |].
  assert (Hdl : delta_of c r s1 = wait_of c r * (1 + clock_drift c))
    by (unfold delta_of; rewrite Hs, Hp1, L1; lra).
  assert (Hpr1 : printable c r s1) by (apply printable_intro; rewrite Hdl; lra).
  assert (Hg1 : representable c r s1).
  { apply representable_intro; try assumption. rewrite Hdl.
    assert (wait_of c r * (1 + clock_drift c) <= wait_of c r * 1000)
      by (apply Rmult_le_compat_l; lra).
    lra. }
  split; [exact Hreach |]. split; [exact L1 |]. split; [exact F1 |].
  split; [apply (tick_step c Hacc s1 Hok1 r (proj1 Hr) Hpr1 Hg1) |].
  split; [exact Hc |].
  change (clock (snd (step c r s1))) with (snapped c r s1).
  rewrite Hs, Hp1. reflexivity.
Qed.

Lemma valid_draw_quick : valid_draw (- (1 / 2)).
Proof. unfold valid_draw; lra. Qed.

Lemma quick_wait : wait_of default_config (- (1 / 2)) = 180.
Proof. unfold wait_of. cbn. lra. Qed.

(** At the defaults with waits of 180 seconds the second iteration, at
    time 360, crosses no boundary. *)
Lemma quick_ticks :
  reachable default_config quick1 /\
  last_timestamp quick1 = 180 /\
  tx_fees quick1 = 0 /\
  tick default_config (- (1 / 2)) quick1 = Ok (quick2, quick_tick2) /\
  crossed quick_tick2 = false /\
  clock quick_tick2 = 360.
Proof.
  destruct (two_ticks default_config (- (1 / 2)))
    as (H1 & H2 & H3 & H4 & H5 & H6).
  - exact (proj1 (startup_accepted _ _ startup_default)).
  - apply valid_draw_quick.
  - cbn. lra.
  - cbn. lra.
  - rewrite quick_wait. lra.
  - rewrite quick_wait. cbn. lra.
  - rewrite quick_wait, datetime_span_value. cbn. lra.
  - fold quick1 in H1, H2, H3, H4, H5, H6. fold quick_tick2 in H5, H6.
    rewrite quick_wait in H2, H6.
    split; [exact H1 |]. split; [exact H2 |]. split; [exact H3 |].
    split; [exact H4 |]. split; [exact H5 |]. rewrite H6. lra.
Qed.

Lemma strict_wait : wait_of strict_config 0 = 300.
Proof. unfold wait_of. cbn. lra. Qed.

(** With [--tolerance 0] and waits of 300 seconds, likewise. *)
Lemma strict_ticks :
  reachable strict_config strict1 /\
  last_timestamp strict1 = 300 /\
  tick strict_config 0 strict1 = Ok (strict2, strict_tick2).
Proof.
  destruct (two_ticks strict_config 0) as (H1 & H2 & _ & H4 & _).
  - exact (proj1 (startup_accepted _ _ startup_strict)).
  - apply valid_draw_0.
  - cbn. lra.
  - cbn. lra.
  - rewrite strict_wait. lra.
  - rewrite strict_wait. cbn. lra.
  - rewrite strict_wait, datetime_span_value. cbn. lra.
  - fold strict1 in H1, H2, H4. rewrite strict_wait in H2.
    split; [exact H1 |]. split; [exact H2 | exact H4].
Qed.

Lemma throttle_frame_witness :
  (fee_tolerance default_config < usd_per_day quick_tick2 /\
   crossed quick_tick2 = false /\
   skipped quick_tick2 = true /\
   applied quick_tick2 = 0 /\
   num_skips quick2 = (num_skips quick1 + 1)%Z /\
   num_mints quick2 = num_mints quick1 /\
   tx_fees quick2 = tx_fees quick1 /\
   fund_shares quick2 = fund_shares quick1 /\
   last_timestamp quick2 = last_timestamp quick1) /\
  (usd_per_day half_tick2 <= fee_tolerance half_config /\
   crossed half_tick2 = true /\
   skipped half_tick2 = false /\
   applied half_tick2 = candidate half_tick2 /\
   tx_fees half2 = tx_fees half1 + this_tx_fee /\
   last_timestamp half2 = clock half_tick2 /\
   exists sm, summary half_tick2 = Some sm /\
              sum_mints sm = (num_mints half1 + 1)%Z).
Proof.
  split.
  - destruct quick_ticks as (Hreach & Hl & Hf & Ht & Hc & Hk).
    destruct (throttle_frame default_args default_config quick1 quick2
                (- (1 / 2)) quick_tick2 startup_default Hreach
                ltac:(rewrite Hl; lra) valid_draw_quick Ht)
      as (_ & _ & U & Hskip & _).
    assert (Hrate : fee_tolerance default_config < usd_per_day quick_tick2).
    { rewrite U, Hk, Hf, this_tx_fee_value. cbn. lra. }
    split; [exact Hrate |]. split; [exact Hc |]. exact (Hskip Hrate Hc).
  - destruct half1_fields as (Hl & _ & _ & Hf & _).
    destruct half2_fields as (_ & _ & _ & _ & Hc & _ & _ & _ & _ & Hk).
    destruct (throttle_frame half_args half_config half1 half2 0 half_tick2
                startup_half half1_reachable ltac:(rewrite Hl; lra)
                valid_draw_0 half_tick2_eq)
      as (_ & _ & U & _ & Hcommit).
    assert (Hrate : usd_per_day half_tick2 <= fee_tolerance half_config).
    { rewrite U, Hk, Hf, this_tx_fee_value. cbn. lra. }
    destruct (Hcommit Hrate) as (A & B & C & D & _ & E).
    split; [exact Hrate |]. split; [exact Hc |].
    split; [exact A |]. split; [exact B |]. split; [exact C |].
    split; [exact D |]. exact (E Hc).
Defined.

(** C1 (counterexample).  With [--tolerance 0] the second iteration of the
    run crosses the first boundary after the bootstrap and is throttled:
    it is counted as a skip, its positive candidate mint is dropped and no
    fee is charged. *)
Lemma boundary_tick_throttled :
  exists c s s' o sm,
    startup zero_tolerance_args = Ok c /\
    reachable c s /\ last_timestamp s <> 0 /\ valid_draw 0 /\
    tick c 0 s = Ok (s', o) /\
    bootstrap o = false /\ crossed o = true /\ new_period o = true /\
    skipped o = true /\
    applied o = 0 /\ 0 < candidate o /\
    fund_shares s' = fund_shares s /\
    tx_fees s' = tx_fees s /\
    summary o = Some sm /\
    sum_mints sm = num_mints s /\
    sum_skips sm = (num_skips s + 1)%Z.
Proof.
  destruct (throttled_boundary zero_tolerance_config)
    as (s & o & s' & o' & sm & _ & Hreach & Hl & Ht & B & C & N & K & _ & A
        & D & S & F & _ & M1 & M2 & M3).
  - exact (proj1 (startup_accepted _ _ startup_zero_tolerance)).
  - cbn. lra.
  - cbn. lra.
  - cbn. lra.
  - cbn. lra.
  - cbn. lra.
  - cbn. lra.
  - rewrite datetime_span_value. cbn. lra.
  - rewrite this_tx_fee_value. cbn. lra.
  - exists zero_tolerance_config, s, s', o', sm.
    split; [apply startup_zero_tolerance |].
    repeat (split; [assumption |]).
    split; [unfold valid_draw; lra |].
    repeat (split; [assumption |]). assumption.
Qed.

(** C7 (counterexample).  With [--tolerance 0.001] the second iteration of
    the run is a post-bootstrap boundary iteration whose projected rate
    exceeds the tolerance: the fee is not added, the summary counts no
    mint, yet the last committed clock advances. *)
Lemma boundary_tick_charges_nothing :
  exists c s s' o sm,
    startup low_tolerance_args = Ok c /\
    reachable c s /\ last_timestamp s <> 0 /\ valid_draw 0 /\
    tick c 0 s = Ok (s', o) /\
    bootstrap o = false /\ crossed o = true /\
    fee_tolerance c < usd_per_day o /\
    tx_fees s' <> tx_fees s + this_tx_fee /\
    summary o = Some sm /\
    sum_mints sm <> (num_mints s + 1)%Z /\
    last_timestamp s' = clock o.
Proof.
  destruct (throttled_boundary low_tolerance_config)
    as (s & o & s' & o' & sm & _ & Hreach & Hl & Ht & B & C & N & K & U & A
        & D & S & F & L & M1 & M2 & M3).
  - exact (proj1 (startup_accepted _ _ startup_low_tolerance)).
  - cbn. lra.
  - cbn. lra.
  - cbn. lra.
  - cbn. lra.
  - cbn. lra.
  - cbn. lra.
  - rewrite datetime_span_value. cbn. lra.
  - rewrite this_tx_fee_value. cbn. lra.
  - exists low_tolerance_config, s, s', o', sm.
    split; [apply startup_low_tolerance |].
    repeat (split; [assumption |]).
    split; [unfold valid_draw; lra |].
    repeat (split; [assumption |]).
    split; [rewrite F; pose proof fee_pos; lra |].
    split; [assumption |].
    split; [rewrite M2; lia | assumption].
Qed.

(** C4 (counterexample).  With [--drift -1.001] the second iteration of
    the run sees a time delta of -0.3 seconds, a growth factor below 1 and
    a negative mint: [fund_shares] decreases and falls below
    [init_shares]. *)
Lemma shares_decrease_negative_drift :
  exists c s s' o,
    startup drift_args = Ok c /\
    reachable c s /\ valid_draw 0 /\
    tick c 0 s = Ok (s', o) /\
    skipped o = false /\
    applied o < 0 /\
    fund_shares s' < fund_shares s /\
    fund_shares s' < init_shares.
Proof.
  pose proof (proj1 (startup_accepted _ _ startup_drift)) as Hacc.
  assert (HP : (0 < mgmt_fee_period drift_config)%Z) by (cbn; lia).
  set (s1 := fst (step drift_config 0 init_state)).
  assert (Hp0 : proposed drift_config 0 init_state = 300)
    by (unfold proposed, wait_of; cbn; lra).
  destruct (bootstrap_fields drift_config 0 init_state HP eq_refl)
    as (L1 & T1 & S1 & F1 & _ & _ & _ & _ & _ & Hs0);
    [rewrite Hp0; cbn; lra |].
  fold s1 in L1, T1, S1, F1. rewrite Hp0 in L1, T1.
  cbn [init_state mint fund_shares tx_fees] in S1, F1.
  assert (Hpr0 : printable drift_config 0 init_state).
  { apply printable_intro. unfold delta_of.
    rewrite Hs0, Hp0, datetime_span_value. cbn. lra. }
  assert (Hok1 : state_ok drift_config s1)
    by (apply step_ok; [assumption | apply init_state_ok | lra]).
  assert (Hp1 : proposed drift_config 0 s1 = 600)
    by (unfold proposed, wait_of; rewrite T1; cbn; lra).
  destruct (commit_stay_fields drift_config 0 s1 0 HP)
    as (_ & _ & S2 & _ & _ & _ & K2 & _ & _ & Hs);
    [lia | rewrite L1; lra | rewrite L1; cbn; lra | rewrite Hp1; cbn; lra
     | rewrite Hp1, F1, this_tx_fee_value; cbn; lra |].
  assert (Hpr1 : printable drift_config 0 s1).
  { apply printable_intro. unfold delta_of.
    rewrite Hs, Hp1, L1, datetime_span_value. cbn. lra. }
  assert (Hg : growth_of drift_config 0 s1 < 1).
  { unfold growth_of, delta_of. rewrite Hs, Hp1, L1.
    apply Rpower_lt_1; cbn; lra. }
  assert (Hg1 : representable drift_config 0 s1)
    by (intros _; pose proof float_max_ge_2; lra).
  exists drift_config, s1, (fst (step drift_config 0 s1)),
    (snd (step drift_config 0 s1)).
  split; [apply startup_drift |].
  split.
  { apply reachable_step;
      [assumption | constructor | | unfold valid_draw; lra | assumption
       | now apply representable_boot].
    apply loop_cond_true. cbn. lra. }
  split; [unfold valid_draw; lra |].
  split; [now rewrite (tick_step _ Hacc _ Hok1 0 ltac:(lra) Hpr1 Hg1) |].
  split; [assumption |].
  assert (Ha : applied (snd (step drift_config 0 s1))
               = fund_shares s1 * (growth_of drift_config 0 s1 - 1)).
  { unfold step, report. cbn [snd applied].
    rewrite branch_commit; [reflexivity | rewrite L1; lra |].
    unfold rate_of. rewrite Hs, Hp1, F1, this_tx_fee_value. cbn. lra. }
  rewrite Ha, S2, S1. unfold init_shares. repeat split; nra.
Qed.

(** C8 (counterexample).  With [--drift -2] the first iteration has a
    drifted time delta of -300 seconds: [pretty_delta] raises
    [OverflowError] while the log line is built (line 172), before the
    clock is committed and before any summary is printed. *)
Lemma bootstrap_tick_overflows :
  startup backward_args = Ok backward_config /\
  valid_draw 0 /\
  time_delta (snd (step backward_config 0 init_state)) = -300 /\
  pretty_delta (-300) = Raise OverflowError /\
  tick backward_config 0 init_state = Raise OverflowError.
Proof.
  pose proof (proj1 (startup_accepted _ _ startup_backward)) as Hacc.
  assert (HP : (0 < mgmt_fee_period backward_config)%Z) by (cbn; lia).
  assert (Hp0 : proposed backward_config 0 init_state = 300)
    by (unfold proposed, wait_of; cbn; lra).
  destruct (bootstrap_fields backward_config 0 init_state HP eq_refl)
    as (_ & _ & _ & _ & _ & _ & _ & _ & _ & Hs); [rewrite Hp0; cbn; lra |].
  assert (Hd : delta_of backward_config 0 init_state = -300)
    by (unfold delta_of; rewrite Hs, Hp0; cbn; lra).
  assert (Hi : py_int (-300) = (-300)%Z).
  { unfold py_int. rewrite Rltb_true by lra.
    replace (- -300) with 300 by lra.
    replace (Int_part 300) with 300%Z; [reflexivity |].
    apply Int_part_spec. lra. }
  assert (Hraise : pretty_delta (-300) = Raise OverflowError).
  { apply pretty_delta_raises. rewrite Hi. lia. }
  split; [apply startup_backward |].
  split; [unfold valid_draw; lra |].
  split; [exact Hd |].
  split; [exact Hraise |].
  rewrite (tick_eq _ Hacc _ (init_state_ok _) 0 ltac:(lra)), Hd, Hraise.
  cbn [init_state last_timestamp]. rewrite Reqb_true by reflexivity.
  reflexivity.
Qed.

(** ** Witnesses at the defaults of the script *)

Lemma default_printable : printable default_config 0 init_state.
Proof.
  assert (HP : (0 < mgmt_fee_period default_config)%Z) by (cbn; lia).
  assert (Hp : proposed default_config 0 init_state = 300)
    by (unfold proposed, wait_of; cbn; lra).
  destruct (bootstrap_fields default_config 0 init_state HP eq_refl)
    as (_ & _ & _ & _ & _ & _ & _ & _ & _ & Hs); [rewrite Hp; cbn; lra |].
  apply printable_intro. unfold delta_of.
  rewrite Hs, Hp, datetime_span_value. cbn. lra.
Qed.

Lemma bootstrap_tick_witness :
  exists s' o sm,
    tick default_config 0 init_state = Ok (s', o) /\
    bootstrap o = true /\
    applied o = 0 /\ fund_shares s' = init_shares /\
    new_period o = true /\
    skipped o = false /\ tx_fees s' = 0 /\ usd_per_day o = 0 /\
    last_timestamp s' = clock o /\ this_timestamp s' = clock o /\
    summary o = Some sm /\
    sum_mints sm = 0%Z /\ sum_start sm = true /\ sum_skips sm = 0%Z /\
    display_time sm = 0.
Proof.
  apply (bootstrap_tick default_args).
  - apply startup_default.
  - apply valid_draw_0.
  - apply default_printable.
Defined.

Lemma clock_monotone_witness :
  this_timestamp half2 = clock half_tick2 /\
  this_timestamp half1 <= this_timestamp half2.
Proof.
  apply (clock_monotone half_args half_config half1 half2 0 half_tick2).
  - apply startup_half.
  - apply half1_reachable.
  - apply valid_draw_0.
  - apply half_tick2_eq.
Defined.

Lemma shares_fees_monotone_witness :
  fund_shares half1 <= fund_shares half2 /\
  tx_fees half1 <= tx_fees half2 /\
  init_shares <= fund_shares half2.
Proof.
  apply (shares_fees_monotone half_args half_config half1 half2 0 half_tick2).
  - apply startup_half.
  - cbn. lra.
  - apply half1_reachable.
  - apply valid_draw_0.
  - apply half_tick2_eq.
Defined.

(** ** Start-up on the edges of the option ranges *)

(** C3 (the code at the failing input).  [--mint 300 --noise 300] passes
    start-up: the check on line 83 only rejects a noise strictly above the
    mint period. *)
Theorem noise_equal_mint_accepted :
  startup equal_noise_args = Ok equal_noise_config.
Proof. rewrite startup_eval; [reflexivity | cbn; lra | cbn; lia ..]. Qed.

(** X3.  A noise strictly above the mint period is rejected. *)
Theorem noise_above_mint_rejected (a : Args) :
  0 <= arg_fee a < 1 ->
  (0 < arg_period a)%Z -> (0 < arg_mint a < arg_noise a)%Z ->
  startup a = Raise ArgumentTypeError.
Proof.
  intros Hf Hp Hm. unfold startup, percentage, positive_int.
  rewrite Rltb_false, Rgtb_false by lra. cbn.
  destruct (Z.leb_spec (arg_period a) 0); [lia |].
  destruct (Z.leb_spec (arg_mint a) 0); [lia |].
  destruct (Z.leb_spec (arg_noise a) 0); [lia |]. cbn.
  rewrite py_div_ok by lra. cbn.
  destruct (Z.gtb_spec (arg_noise a) (arg_mint a)); [reflexivity | lia].
Qed.

Lemma noise_above_mint_rejected_witness :
  startup (mkArgs (2 / 100) 365 300 301 (1 / 1000) 1) = Raise ArgumentTypeError.
Proof.
  apply noise_above_mint_rejected; cbn; [lra | lia | lia].
Defined.

(** C5 (the code at the failing input).  [--fee 1.0] passes the
    [percentage] check and then line 75 divides by zero. *)
Theorem full_fee_raises :
  percentage (arg_fee full_fee_args) = Ok 1 /\
  startup full_fee_args = Raise ZeroDivisionError.
Proof.
  unfold startup, percentage. cbn.
  rewrite Rltb_false, Rgtb_false by lra. cbn.
  split; [reflexivity |].
  replace (1 - 1) with 0 by lra. rewrite py_div_zero. reflexivity.
Qed.

(** C10 (the code at the failing input).  With [--mint 300 --noise 300]
    and a first draw [random.random() = 0.0], that is [r = -1], the first
    wait is 0: the bootstrap iteration leaves the clock and the last
    committed clock at 0. *)
Theorem bootstrap_clock_zero :
  exists s' o,
    startup equal_noise_args = Ok equal_noise_config /\
    valid_draw (-1) /\
    tick equal_noise_config (-1) init_state = Ok (s', o) /\
    bootstrap o = true /\
    wait o = 0 /\
    clock o = 0 /\
    last_timestamp s' = 0.
Proof.
  pose proof (proj1 (startup_accepted _ _ startup_equal_noise)) as Hacc.
  assert (HP : (0 < mgmt_fee_period equal_noise_config)%Z) by (cbn; lia).
  assert (Hp0 : proposed equal_noise_config (-1) init_state = 0)
    by (unfold proposed, wait_of; cbn; lra).
  destruct (bootstrap_fields equal_noise_config (-1) init_state HP eq_refl)
    as (L1 & _ & _ & _ & B1 & _ & _ & _ & C1 & Hs); [rewrite Hp0; cbn; lra |].
  assert (Hpr : printable equal_noise_config (-1) init_state).
  { apply printable_intro. unfold delta_of.
    rewrite Hs, Hp0, datetime_span_value. cbn. lra. }
  exists (fst (step equal_noise_config (-1) init_state)),
    (snd (step equal_noise_config (-1) init_state)).
  split; [apply startup_equal_noise |].
  split; [unfold valid_draw; lra |].
  split;
    [now rewrite (tick_step _ Hacc _ (init_state_ok _) (-1) ltac:(lra) Hpr
                    (representable_boot _ init_state (-1) eq_refl)) |].
  split; [assumption |].
  split; [cbn; unfold wait_of; cbn; lra |].
  split; [now rewrite C1 | now rewrite L1].
Qed.

(** X1.  With the noise strictly below the mint period, the bootstrap
    iteration, when it returns, has a strictly positive wait and commits a
    strictly positive clock. *)
Theorem bootstrap_clock_positive (a : Args) (c : Config) (r : R)
        (s' : State) (o : Tick) :
  startup a = Ok c ->
  (mint_period_noise c < mint_period c)%Z ->
  valid_draw r ->
  tick c r init_state = Ok (s', o) ->
  bootstrap o = true /\
  last_timestamp s' = clock o /\
  0 < wait o /\
  0 < clock o.
Proof.
  intros Hs Hlt [Hr _] Ht.
  apply startup_accepted in Hs as [Hacc _].
  pose proof (init_state_ok c) as Hok.
  pose proof (wait_pos c Hacc r Hlt Hr) as Hw.
  destruct (tick_inv c Hacc init_state Hok r Hr _ Ht) as [E _].
  injection E as -> ->.
  unfold next_state, report. rewrite branch_bootstrap by reflexivity.
  cbn [bootstrap last_timestamp clock wait br_skipped br_new_period negb orb].
  split; [now apply Reqb_true |]. split; [reflexivity |].
  split; [exact Hw |].
  unfold snapped. destruct (crosses c r init_state) eqn:E.
  - apply crosses_true in E.
    assert (E0 : period_of c (last_timestamp init_state) = 0%Z)
      by (cbn; apply (period_of_multiple c (acc_period c Hacc) 0); lia).
    rewrite mult_IZR. pose proof (period_pos c Hacc).
    assert (1 <= IZR (period_of c (proposed c r init_state)))
      by (apply IZR_le; lia).
    nra.
  - unfold proposed. cbn. fold (wait_of c r) in Hw. lra.
Qed.

Lemma default_tick1 :
  tick default_config 0 init_state
  = Ok (fst (step default_config 0 init_state),
        snd (step default_config 0 init_state)).
Proof.
  rewrite (tick_step _ (proj1 (startup_accepted _ _ startup_default)) _
             (init_state_ok _) 0 ltac:(lra) default_printable
             (representable_boot _ init_state 0 eq_refl)).
  now destruct (step default_config 0 init_state).
Qed.

Lemma bootstrap_clock_positive_witness :
  bootstrap (snd (step default_config 0 init_state)) = true /\
  last_timestamp (fst (step default_config 0 init_state))
  = clock (snd (step default_config 0 init_state)) /\
  0 < wait (snd (step default_config 0 init_state)) /\
  0 < clock (snd (step default_config 0 init_state)).
Proof.
  apply (bootstrap_clock_positive default_args default_config 0).
  - apply startup_default.
  - cbn. lia.
  - apply valid_draw_0.
  - apply default_tick1.
Defined.

(** ** The fast clock: an overflow of the minting formula *)

Lemma startup_fast : startup fast_args = Ok fast_config.
Proof. rewrite startup_eval; [reflexivity | cbn; lra | cbn; lia ..]. Qed.

Lemma fast_accepted : accepted fast_config.
Proof. exact (proj1 (startup_accepted _ _ startup_fast)). Qed.

Lemma fast_period : (0 < mgmt_fee_period fast_config)%Z.
Proof. cbn. lia. Qed.

Lemma fast1_fields :
  last_timestamp fast1 = 43200 /\ this_timestamp fast1 = 43200 /\
  delta_of fast_config 0 init_state = 4320043200.
Proof.
  assert (Hp : proposed fast_config 0 init_state = 43200)
    by (unfold proposed, wait_of; cbn; lra).
  destruct (bootstrap_fields fast_config 0 init_state fast_period eq_refl)
    as (L1 & T1 & _ & _ & _ & _ & _ & _ & _ & Hs); [rewrite Hp; cbn; lra |].
  fold fast1 in L1, T1. rewrite Hp in L1, T1.
  repeat split; try assumption.
  unfold delta_of. rewrite Hs, Hp. cbn. lra.
Qed.

Lemma fast1_ok : state_ok fast_config fast1.
Proof. apply step_ok; [apply fast_accepted | apply init_state_ok | lra]. Qed.


(** The second iteration: the drifted delta, 4320043200 seconds, is
    printable, but the growth factor is [2 ^ 50000.5]. *)
Lemma fast2_fields :
  delta_of fast_config 0 fast1 = 4320043200 /\
  growth_of fast_config 0 fast1 = Rpower 2 (100001 / 2).
Proof.
  destruct fast1_fields as (Hl & Ht & _).
  assert (Hp : proposed fast_config 0 fast1 = 86400)
    by (unfold proposed, wait_of; rewrite Ht; cbn; lra).
  destruct (cross_eval fast_config 0 fast1 0 1 fast_period)
    as (_ & _ & _ & Hs);
    [lia | rewrite Hl; cbn; lra | rewrite Hp; cbn; lra |].
  assert (Hd : delta_of fast_config 0 fast1 = 4320043200)
    by (unfold delta_of; rewrite Hs, Hl; cbn; lra).
  split; [exact Hd |].
  unfold growth_of. rewrite Hd. cbn. f_equal; lra.
Qed.


Lemma fast2_printable : printable fast_config 0 fast1.
Proof.
  destruct fast2_fields as (Hd & _).
  apply printable_intro. rewrite Hd, datetime_span_value. lra.
Qed.




(** ** Start-up, characterised *)

Lemma config_eta (c : Config) :
  c = mkConfig (mgmt_fee c) (inflation_rate c) (mgmt_fee_period c)
        (mint_period c) (mint_period_noise c) (clock_drift c) (fee_tolerance c).
Proof. now destruct c. Qed.

(** X4.  Start-up succeeds exactly on the option sets with a fee in
    [0, 1), positive period, mint and noise, and a noise not above the mint
    period; the configuration it returns holds the options, the period in
    seconds and the inflation rate [1 / (1 - fee)]. *)
Theorem startup_accepts_iff (a : Args) (c : Config) :
  startup a = Ok c <->
  (0 <= arg_fee a < 1 /\
   (0 < arg_period a)%Z /\ (0 < arg_mint a)%Z /\
   (0 < arg_noise a <= arg_mint a)%Z /\
   c = mkConfig (arg_fee a) (1 / (1 - arg_fee a))
         (arg_period a * 60 * 60 * 24) (arg_mint a) (arg_noise a)
         (arg_drift a) (arg_tolerance a)).
Proof.
  split.
  - intros H.
    destruct (startup_accepted a c H) as ([Hf Hr Hp Hm Hn] & E1 & E2 & E3 & E4 & E5 & E6).
    rewrite E1 in Hf, Hr. rewrite E2 in Hp. rewrite E3 in Hm, Hn. rewrite E4 in Hn.
    repeat split; try lra; try lia.
    rewrite (config_eta c), E1, Hr, E2, E3, E4, E5, E6. reflexivity.
  - intros (Hf & Hp & Hm & Hn & ->). now apply startup_eval.
Qed.

(** X5.  When start-up raises, it raises [ArgumentTypeError] for an option
    out of its range, or [ZeroDivisionError] for the fee 1.0, which the fee
    check lets through. *)
Theorem startup_raises (a : Args) (e : exn) :
  startup a = Raise e ->
  (e = ArgumentTypeError /\
   (arg_fee a < 0 \/ 1 < arg_fee a \/ (arg_period a <= 0)%Z \/
    (arg_mint a <= 0)%Z \/ (arg_noise a <= 0)%Z \/
    (arg_mint a < arg_noise a)%Z)) \/
  (e = ZeroDivisionError /\ arg_fee a = 1).
Proof.
  unfold startup, percentage, positive_int, Rgtb.
  destruct (Rlt_dec (arg_fee a) 0) as [H0 | H0];
    [rewrite Rltb_true by assumption; cbn; intros [= <-]; left; auto |].
  rewrite (Rltb_false (arg_fee a) 0) by lra.
  destruct (Rlt_dec 1 (arg_fee a)) as [H1 | H1];
    [rewrite Rltb_true by assumption; cbn; intros [= <-]; left; auto |].
  rewrite (Rltb_false 1 (arg_fee a)) by lra. cbn.
  destruct (Z.leb_spec (arg_period a) 0); cbn; [intros [= <-]; left; auto 10 |].
  destruct (Z.leb_spec (arg_mint a) 0); cbn; [intros [= <-]; left; auto 10 |].
  destruct (Z.leb_spec (arg_noise a) 0); cbn; [intros [= <-]; left; auto 10 |].
  destruct (Req_dec_T (arg_fee a) 1) as [E | E].
  - replace (1 - arg_fee a) with 0 by lra. rewrite py_div_zero. cbn.
    intros [= <-]. right. auto.
  - rewrite py_div_ok by lra. cbn.
    destruct (Z.gtb_spec (arg_noise a) (arg_mint a)); [| discriminate].
    intros [= <-]. left. split; [reflexivity |]. auto 10.
Qed.

Lemma startup_full_fee : startup full_fee_args = Raise ZeroDivisionError.
Proof.
  unfold startup, percentage. cbn.
  rewrite Rltb_false, Rgtb_false by lra. cbn.
  replace (1 - 1) with 0 by lra. now rewrite py_div_zero.
Qed.

Lemma startup_raises_witness :
  (ZeroDivisionError = ArgumentTypeError /\
   (arg_fee full_fee_args < 0 \/ 1 < arg_fee full_fee_args \/
    (arg_period full_fee_args <= 0)%Z \/
    (arg_mint full_fee_args <= 0)%Z \/ (arg_noise full_fee_args <= 0)%Z \/
    (arg_mint full_fee_args < arg_noise full_fee_args)%Z)) \/
  (ZeroDivisionError = ZeroDivisionError /\ arg_fee full_fee_args = 1).
Proof.
  apply (startup_raises full_fee_args ZeroDivisionError).
  apply startup_full_fee.
Defined.

(** ** [pretty_delta], characterised *)

Lemma py_int_le_neg (x : R) : x <= -1 -> (py_int x <= -1)%Z.
Proof.
  intros H. unfold py_int. rewrite Rltb_true by lra.
  destruct (base_Int_part (- x)) as [Hb1 Hb2].
  assert (0 < IZR (Int_part (- x))) by lra.
  apply lt_IZR in H0. lia.
Qed.

Lemma py_int_ge (x : R) (n : Z) : (0 <= n)%Z -> IZR n <= x -> (n <= py_int x)%Z.
Proof.
  intros Hn H. assert (0 <= x) by (apply IZR_le in Hn; lra).
  destruct (py_int_bounds x H0) as [_ Hu].
  apply Z.lt_succ_r. apply lt_IZR. rewrite succ_IZR. lra.
Qed.

(** X6.  [pretty_delta] accepts exactly the deltas above -1 second and
    below 3652059 days, formatting their whole seconds truncated towards
    zero (so a delta in (-1, 0) is shown as zero); any other delta raises
    [OverflowError]. *)
Theorem pretty_delta_range (x : R) :
  (-1 < x < 315537897600 -> pretty_delta x = Ok (py_int x)) /\
  (-1 < x < 1 -> pretty_delta x = Ok 0%Z) /\
  (x <= -1 \/ 315537897600 <= x -> pretty_delta x = Raise OverflowError).
Proof.
  split; [| split].
  - intros H. apply pretty_delta_ok. apply py_int_range; [reflexivity |].
    now rewrite datetime_span_value.
  - intros H.
    assert (E : py_int x = 0%Z).
    { pose proof (py_int_range x 1 eq_refl H). lia. }
    rewrite <- E. apply pretty_delta_ok. rewrite E. split; [lia | reflexivity].
  - intros [H | H]; apply pretty_delta_raises.
    + pose proof (py_int_le_neg x H). lia.
    + pose proof (py_int_ge x datetime_span ltac:(discriminate)
                    ltac:(now rewrite datetime_span_value)).
      lia.
Qed.

(** ** The loop: completion and termination *)

Lemma loop_cond_inv (c : Config) (s : State) :
  loop_cond c s = true -> this_timestamp s <= horizon c.
Proof.
  unfold loop_cond, horizon, Rgtb, Rltb.
  destruct (Rlt_dec (IZR (mgmt_fee_period c * sim_periods)) (this_timestamp s));
    [discriminate | lra].
Qed.

Lemma loop_cond_false_inv (c : Config) (s : State) :
  loop_cond c s = false -> horizon c < this_timestamp s.
Proof.
  unfold loop_cond, horizon, Rgtb, Rltb.
  destruct (Rlt_dec (IZR (mgmt_fee_period c * sim_periods)) (this_timestamp s));
    [intros _; assumption | discriminate].
Qed.

Lemma min_wait_nonneg (c : Config) : accepted c -> 0 <= min_wait c.
Proof.
  intros Hacc. unfold min_wait. destruct Hacc as [_ _ _ _ [_ Hn]].
  apply IZR_le in Hn. lra.
Qed.

Section Progress.
Variable c : Config.
Hypothesis Hacc : accepted c.
Variable s : State.
Hypothesis Hok : state_ok c s.
Variable r : R.
Hypothesis Hr : valid_draw r.

Lemma wait_bounds :
  min_wait c <= wait_of c r < IZR (mint_period c) + IZR (mint_period_noise c).
Proof.
  destruct Hr as [Hr1 Hr2]. destruct Hacc as [_ _ _ _ [Hn0 _]].
  apply IZR_lt in Hn0. unfold min_wait, wait_of. nra.
Qed.

Lemma snapped_le_proposed : snapped c r s <= proposed c r s.
Proof.
  unfold snapped. destruct (crosses c r s); [| lra].
  apply (period_of_bounds c (acc_period c Hacc)).
  apply (proposed_nonneg c Hacc s Hok r (proj1 Hr)).
Qed.

(** While the loop runs, a moderate drift keeps every delta printable. *)
Lemma loop_printable :
  loop_cond c s = true ->
  -1 <= clock_drift c ->
  (horizon c + IZR (mint_period c) + IZR (mint_period_noise c))
    * (1 + clock_drift c) < IZR datetime_span ->
  printable c r s.
Proof.
  intros Hl Hd Hspan. apply loop_cond_inv in Hl.
  pose proof wait_bounds as [_ Hw].
  pose proof snapped_le_proposed as Hsp.
  pose proof (snapped_ge_last c Hacc s Hok r (proj1 Hr)) as Hge.
  destruct Hok as [H0 _ _ _ _ _].
  apply printable_intro. unfold delta_of.
  unfold proposed in Hsp.
  assert (0 <= snapped c r s - last_timestamp s
          <= horizon c + IZR (mint_period c) + IZR (mint_period_noise c))
    by lra.
  assert (0 <= (snapped c r s - last_timestamp s) * (1 + clock_drift c))
    by (apply Rmult_le_pos; lra).
  assert ((snapped c r s - last_timestamp s) * (1 + clock_drift c)
          <= (horizon c + IZR (mint_period c) + IZR (mint_period_noise c))
             * (1 + clock_drift c))
    by (apply Rmult_le_compat_r; lra).
  lra.
Qed.

(** While the loop runs the growth factor stays below the one of the
    longest possible time delta. *)
Lemma loop_representable :
  loop_cond c s = true ->
  -1 <= clock_drift c ->
  Rpower (inflation_rate c)
    ((horizon c + IZR (mint_period c) + IZR (mint_period_noise c))
     * (1 + clock_drift c) / IZR (mgmt_fee_period c)) <= float_max ->
  representable c r s.
Proof.
  intros Hl Hd Hmax _. apply loop_cond_inv in Hl.
  pose proof wait_bounds as [_ Hw].
  pose proof snapped_le_proposed as Hsp.
  pose proof (snapped_ge_last c Hacc s Hok r (proj1 Hr)) as Hge.
  pose proof (period_pos c Hacc) as HP.
  destruct Hok as [H0 _ _ _ _ _].
  unfold proposed in Hsp.
  eapply Rle_trans; [| exact Hmax].
  unfold growth_of. apply Rpower_le_exp; [now apply rate_ge_1 |].
  apply Rmult_le_compat_r; [left; now apply Rinv_0_lt_compat |].
  unfold delta_of. apply Rmult_le_compat_r; lra.
Qed.

(** Every iteration adds at least one shortest wait to the potential. *)
Lemma step_potential :
  potential c s + min_wait c <= potential c (fst (step c r s)).
Proof.
  pose proof wait_bounds as [Hw _].
  pose proof (min_wait_nonneg c Hacc) as Hm.
  pose proof (acc_period c Hacc) as HP.
  pose proof (snapped_ge_this c Hacc s Hok r (proj1 Hr)) as Hge.
  pose proof (snapped_period c Hacc s Hok r (proj1 Hr)) as Hper.
  assert (H0 : 0 <= this_timestamp s) by (destruct Hok; lra).
  unfold potential. cbn [fst step next_state this_timestamp].
  destruct (crosses c r s) eqn:E.
  - pose proof (crosses_true c s r E) as Hlt.
    rewrite <- (ok_period c s Hok) in Hlt. rewrite <- Hper in Hlt.
    assert (IZR (period_of c (this_timestamp s)) + 1
            <= IZR (period_of c (snapped c r s)))
      by (rewrite <- succ_IZR; apply IZR_le; lia).
    nra.
  - assert (Es : snapped c r s = proposed c r s)
      by (unfold snapped; now rewrite E).
    assert (IZR (period_of c (this_timestamp s))
            <= IZR (period_of c (snapped c r s)))
      by (apply IZR_le; apply period_of_mono; assumption).
    rewrite Es in *. unfold proposed in *. nra.
Qed.
End Progress.

Lemma potential_bound (c : Config) (s : State) :
  accepted c -> state_ok c s -> loop_cond c s = true ->
  potential c s <= horizon c + min_wait c * IZR sim_periods.
Proof.
  intros Hacc Hok Hl. apply loop_cond_inv in Hl.
  pose proof (min_wait_nonneg c Hacc) as Hm.
  pose proof (acc_period c Hacc) as HP.
  assert (H0 : 0 <= this_timestamp s) by (destruct Hok; lra).
  assert (Hp : (period_of c (this_timestamp s) <= sim_periods)%Z).
  { rewrite <- (period_of_multiple c HP sim_periods) by (unfold sim_periods; lia).
    apply period_of_mono; try assumption.
    unfold horizon in Hl. now rewrite Z.mul_comm in Hl. }
  apply IZR_le in Hp. unfold potential. nra.
Qed.

Lemma run_potential (c : Config) (rs : list R) :
  accepted c -> Forall valid_draw rs ->
  forall (s sf : State) (os : list Tick),
    state_ok c s -> run c rs s = Ok (sf, os) ->
    os = [] \/
    potential c s + min_wait c * (INR (length os) - 1)
    <= horizon c + min_wait c * IZR sim_periods.
Proof.
  intros Hacc. induction 1 as [| r rs Hr _ IH]; intros s sf os Hok Hrun.
  - injection Hrun as <- <-. now left.
  - destruct (run_inv c r rs s sf os Hacc Hok (proj1 Hr) Hrun)
      as [(_ & -> & ->) | (Hl & os' & Hrun' & ->)]; [now left | right].
    pose proof (potential_bound c s Hacc Hok Hl) as Hb.
    pose proof (step_potential c Hacc s Hok r Hr) as Hstep.
    pose proof (min_wait_nonneg c Hacc) as Hm.
    destruct (IH _ _ _ (step_ok c Hacc s Hok r (proj1 Hr)) Hrun') as [-> | IH'].
    + cbn. lra.
    + change (length (snd (step c r s) :: os')) with (S (length os')).
      rewrite S_INR. lra.
Qed.

Lemma run_length_or_done (c : Config) (rs : list R) :
  forall (s sf : State) (os : list Tick),
    run c rs s = Ok (sf, os) ->
    length os = length rs \/ loop_cond c sf = false.
Proof.
  induction rs as [| r rs IH]; intros s sf os Hrun.
  - injection Hrun as <- <-. now left.
  - simpl in Hrun. destruct (loop_cond c s) eqn:Hl.
    + destruct (tick c r s) as [[s1 o] |]; cbn in Hrun; [| discriminate].
      destruct (run c rs s1) as [[sf' os'] |] eqn:E; cbn in Hrun; [| discriminate].
      injection Hrun as <- <-.
      destruct (IH _ _ _ E) as [H | H]; [left; cbn; now rewrite H | now right].
    + injection Hrun as <- <-. now right.
Qed.

(** A run of a configuration with a moderate drift raises nothing. *)
Lemma run_returns (c : Config) (rs : list R) :
  accepted c ->
  -1 <= clock_drift c ->
  (horizon c + IZR (mint_period c) + IZR (mint_period_noise c))
    * (1 + clock_drift c) < IZR datetime_span ->
  Rpower (inflation_rate c)
    ((horizon c + IZR (mint_period c) + IZR (mint_period_noise c))
     * (1 + clock_drift c) / IZR (mgmt_fee_period c)) <= float_max ->
  Forall valid_draw rs ->
  forall s, state_ok c s -> exists sf os, run c rs s = Ok (sf, os).
Proof.
  intros Hacc Hd Hspan Hmax. induction 1 as [| r rs Hr _ IH]; intros s Hok.
  - exists s, []. reflexivity.
  - destruct (loop_cond c s) eqn:Hl.
    + rewrite run_cons; try assumption;
        [| apply Hr | now apply loop_printable | now apply loop_representable].
      destruct (IH _ (step_ok c Hacc s Hok r (proj1 Hr))) as (sf & os & E).
      rewrite E. cbn. eauto.
    + rewrite run_stop by assumption. eauto.
Qed.

(** X7.  With a clock drift of at least -1 and small enough for the
    longest possible time delta (ten fee periods, one mint period and the
    noise, drifted) to stay printable and for the growth factor of that
    delta to stay within the float range, the loop raises nothing, whatever
    the draws. *)
Theorem run_completes (a : Args) (c : Config) (rs : list R) :
  startup a = Ok c ->
  -1 <= clock_drift c ->
  (horizon c + IZR (mint_period c) + IZR (mint_period_noise c))
    * (1 + clock_drift c) < 315537897600 ->
  Rpower (inflation_rate c)
    ((horizon c + IZR (mint_period c) + IZR (mint_period_noise c))
     * (1 + clock_drift c) / IZR (mgmt_fee_period c)) <= float_max ->
  Forall valid_draw rs ->
  exists sf os, run c rs init_state = Ok (sf, os).
Proof.
  intros Hs Hd Hspan Hmax Hrs. apply startup_accepted in Hs as [Hacc _].
  rewrite <- datetime_span_value in Hspan.
  exact (run_returns c rs Hacc Hd Hspan Hmax Hrs _ (init_state_ok c)).
Qed.

Lemma run_length_le (c : Config) (rs : list R) (sf : State) (os : list Tick) :
  accepted c ->
  Forall valid_draw rs ->
  run c rs init_state = Ok (sf, os) ->
  INR (length os) * min_wait c <= horizon c + 11 * min_wait c.
Proof.
  intros Hacc Hrs Hrun.
  pose proof (min_wait_nonneg c Hacc) as Hm.
  assert (Hh : 0 <= horizon c).
  { unfold horizon, sim_periods. apply IZR_le.
    pose proof (acc_period c Hacc). lia. }
  destruct (run_potential c rs Hacc Hrs _ _ _ (init_state_ok c) Hrun) as [-> | H].
  - cbn. lra.
  - assert (E : potential c init_state = 0).
    { unfold potential. cbn [this_timestamp init_state].
      replace (period_of c 0) with 0%Z; [lra |].
      symmetry. apply (period_of_multiple c (acc_period c Hacc) 0). lia. }
    rewrite E in H. unfold sim_periods in H. lra.
Qed.

(** X8.  The loop runs a bounded number of iterations: whatever the draws,
    the iterations of a run, each worth at least the shortest wait
    [mint - noise], fit in the simulated time plus eleven such waits. *)
Theorem run_length_bound (a : Args) (c : Config) (rs : list R)
        (sf : State) (os : list Tick) :
  startup a = Ok c ->
  Forall valid_draw rs ->
  run c rs init_state = Ok (sf, os) ->
  INR (length os) * min_wait c <= horizon c + 11 * min_wait c.
Proof.
  intros Hs Hrs Hrun. apply startup_accepted in Hs as [Hacc _].
  now apply (run_length_le c rs sf os).
Qed.

(** X9.  The loop terminates when the noise is below the mint period: a
    run given more draws than the bound allows has left the loop, its
    clock past the simulated time. *)
Theorem loop_exits (a : Args) (c : Config) (rs : list R)
        (sf : State) (os : list Tick) :
  startup a = Ok c ->
  Forall valid_draw rs ->
  run c rs init_state = Ok (sf, os) ->
  horizon c + 11 * min_wait c < INR (length rs) * min_wait c ->
  loop_cond c sf = false /\ horizon c < this_timestamp sf.
Proof.
  intros Hs Hrs Hrun Hlong.
  apply startup_accepted in Hs as [Hacc _].
  pose proof (run_length_le c rs sf os Hacc Hrs Hrun) as Hb.
  destruct (run_length_or_done c rs _ _ _ Hrun) as [E | E].
  - rewrite E in Hb. lra.
  - split; [assumption | now apply loop_cond_false_inv].
Qed.

(** ** A run that never leaves time 0 *)

Lemma zero_wait_step (c : Config) (s : State) :
  accepted c -> state_ok c s ->
  mint_period_noise c = mint_period c ->
  this_timestamp s = 0 -> last_timestamp s = 0 ->
  printable c (-1) s /\
  loop_cond c s = true /\
  this_timestamp (fst (step c (-1) s)) = 0 /\
  last_timestamp (fst (step c (-1) s)) = 0 /\
  bootstrap (snd (step c (-1) s)) = true.
Proof.
  intros Hacc Hok Hn Ht Hl.
  pose proof (acc_period c Hacc) as HP. pose proof (P_pos c HP) as HP'.
  assert (Hp : proposed c (-1) s = 0)
    by (unfold proposed, wait_of; rewrite Ht, Hn; lra).
  destruct (bootstrap_fields c (-1) s HP Hl)
    as (L1 & T1 & _ & _ & B1 & _ & _ & _ & _ & Hs); [rewrite Hp; lra |].
  split.
  { apply printable_intro. unfold delta_of.
    rewrite Hs, Hp, Hl, datetime_span_value. lra. }
  split.
  { apply loop_cond_true. rewrite Ht. lra. }
  rewrite L1, T1, Hp. auto.
Qed.

Lemma zero_wait_run (c : Config) (n : nat) :
  accepted c -> mint_period_noise c = mint_period c ->
  forall s, state_ok c s -> this_timestamp s = 0 -> last_timestamp s = 0 ->
  exists sf os,
    run c (repeat (-1) n) s = Ok (sf, os) /\
    length os = n /\
    Forall (fun o => bootstrap o = true) os /\
    this_timestamp sf = 0 /\ loop_cond c sf = true.
Proof.
  intros Hacc Hn. induction n as [| n IH]; intros s Hok Ht Hl.
  - exists s, []. repeat split; try assumption; try constructor.
    apply loop_cond_true. rewrite Ht.
    pose proof (period_pos c Hacc). lra.
  - destruct (zero_wait_step c s Hacc Hok Hn Ht Hl) as (Hp & Hc & T1 & L1 & B1).
    destruct (IH _ (step_ok c Hacc s Hok (-1) ltac:(lra)) T1 L1)
      as (sf & os & E & Hlen & Hall & Tf & Cf).
    exists sf, (snd (step c (-1) s) :: os).
    cbn [repeat].
    rewrite run_cons by (assumption || lra || now apply representable_boot).
    rewrite E. cbn.
    repeat split; try assumption; [now rewrite Hlen | now constructor].
Qed.

(** X10.  With a noise equal to the mint period the loop need not end:
    if every draw is [random.random() = 0.0] (r = -1), every wait is 0 and
    every iteration is a bootstrap iteration at time 0, however many are
    run. *)
Theorem zero_wait_never_ends (a : Args) (c : Config) (n : nat) :
  startup a = Ok c ->
  mint_period_noise c = mint_period c ->
  exists sf os,
    run c (repeat (-1) n) init_state = Ok (sf, os) /\
    length os = n /\
    Forall (fun o => bootstrap o = true) os /\
    this_timestamp sf = 0 /\ loop_cond c sf = true.
Proof.
  intros Hs Hn. apply startup_accepted in Hs as [Hacc _].
  apply zero_wait_run; try assumption; [apply init_state_ok | reflexivity ..].
Qed.

(** ** The fee budget *)

Lemma div_days_mono (f t u : R) :
  0 <= f -> 0 < t -> t <= u ->
  f / (u / (60 * 60 * 24)) <= f / (t / (60 * 60 * 24)).
Proof.
  intros Hf Ht Hu.
  assert (0 < t / (60 * 60 * 24)) by (apply Rdiv_lt_0_compat; lra).
  assert (t / (60 * 60 * 24) <= u / (60 * 60 * 24))
    by (apply Rmult_le_compat_r; [| assumption];
        left; apply Rinv_0_lt_compat; lra).
  unfold Rdiv at 1 3. apply Rmult_le_compat_l; [assumption |].
  apply Rinv_le_contravar; assumption.
Qed.

Lemma reachable_budget (c : Config) (s : State) :
  accepted c -> reachable c s ->
  0 < tx_fees s ->
  0 < this_timestamp s /\
  tx_fees s / (this_timestamp s / (60 * 60 * 24)) <= fee_tolerance c.
Proof.
  intros Hacc H. induction H as [| s s' r o Hreach IH Hloop [Hr _] Ht].
  - cbn. lra.
  - pose proof (reachable_ok c s Hacc Hreach) as Hok.
    destruct (tick_inv c Hacc s Hok r Hr _ Ht) as [E _].
    injection E as -> _.
    pose proof (snapped_ge_this c Hacc s Hok r Hr) as Hge.
    pose proof (snapped_ge_last c Hacc s Hok r Hr) as Hgl.
    pose proof (ok_fees c s Hok) as Hf0.
    unfold next_state. cbn [tx_fees this_timestamp].
    unfold branch_of.
    destruct (Req_dec_T (last_timestamp s) 0) as [El | El].
    + rewrite Reqb_true by assumption. cbn [br_tx_fees]. intros Hpos.
      destruct (IH Hpos) as [Hp Hb]. split; [lra |].
      eapply Rle_trans; [| exact Hb]. apply div_days_mono; lra.
    + rewrite Reqb_false by assumption.
      destruct (throttled c r s) eqn:Eth; cbn [br_tx_fees].
      * intros Hpos. destruct (IH Hpos) as [Hp Hb]. split; [lra |].
        eapply Rle_trans; [| exact Hb]. apply div_days_mono; lra.
      * intros _. split; [destruct Hok; lra |].
        unfold throttled, Rgtb, Rltb in Eth.
        destruct (Rlt_dec (fee_tolerance c) (rate_of c r s)); [discriminate |].
        unfold rate_of in n. lra.
Qed.

(** X11.  The throttle keeps the fees within the budget: in every state
    the loop reaches, once any fee has been paid, the fees paid per
    simulated day do not exceed the tolerance. *)
Theorem fee_budget_kept (a : Args) (c : Config) (s : State) :
  startup a = Ok c ->
  reachable c s ->
  0 < tx_fees s ->
  0 < this_timestamp s /\
  tx_fees s / (this_timestamp s / (60 * 60 * 24)) <= fee_tolerance c.
Proof.
  intros Hs. apply startup_accepted in Hs as [Hacc _].
  now apply reachable_budget.
Qed.

(** ** A tolerance of zero or less *)

Lemma frozen_step (c : Config) (r : R) (s : State) :
  accepted c -> fee_tolerance c <= 0 -> state_ok c s -> -1 <= r ->
  tx_fees s = 0 /\ fund_shares s = init_shares /\ earnings s = 0 /\
  mint s = 0 ->
  (last_timestamp s <> 0 -> fee_tolerance c < rate_of c r s) /\
  tx_fees (fst (step c r s)) = 0 /\
  fund_shares (fst (step c r s)) = init_shares /\
  earnings (fst (step c r s)) = 0 /\
  mint (fst (step c r s)) = 0.
Proof.
  intros Hacc Htol Hok Hr (F & S & E & M).
  pose proof (snapped_ge_last c Hacc s Hok r Hr) as Hgl.
  assert (Hth : last_timestamp s <> 0 -> fee_tolerance c < rate_of c r s).
  { intros El. unfold rate_of. rewrite F.
    assert (0 < snapped c r s) by (destruct Hok; lra).
    pose proof fee_pos.
    assert (0 < (0 + this_tx_fee) / (snapped c r s / (60 * 60 * 24))).
    { apply Rdiv_lt_0_compat; [lra |]. apply Rdiv_lt_0_compat; lra. }
    lra. }
  split; [exact Hth |].
  unfold step, next_state. cbn [fst tx_fees fund_shares earnings mint].
  destruct (Req_dec_T (last_timestamp s) 0) as [El | El].
  - rewrite branch_bootstrap by assumption. cbn. rewrite F, S, E, M.
    repeat split; lra.
  - rewrite branch_skip by auto. cbn. rewrite F, S, E. repeat split; lra.
Qed.

Lemma reachable_frozen (c : Config) (s : State) :
  accepted c -> fee_tolerance c <= 0 -> reachable c s ->
  tx_fees s = 0 /\ fund_shares s = init_shares /\ earnings s = 0 /\
  mint s = 0.
Proof.
  intros Hacc Htol H. induction H as [| s s' r o Hreach IH Hloop [Hr _] Ht].
  - cbn. repeat split; reflexivity.
  - pose proof (reachable_ok c s Hacc Hreach) as Hok.
    destruct (tick_inv c Hacc s Hok r Hr _ Ht) as [Eq _].
    replace s' with (fst (step c r s)) by (now rewrite <- Eq).
    now destruct (frozen_step c r s Hacc Htol Hok Hr IH) as [_ H].
Qed.

(** X12.  With a tolerance of zero or less nothing is ever minted or paid:
    every iteration after the bootstrap is throttled (its projected rate is
    positive), no iteration applies a mint, and after every iteration the
    share count is [init_shares] and the fees and the earnings are 0. *)
Theorem no_tolerance_no_mint (a : Args) (c : Config) (s s' : State) (r : R)
        (o : Tick) :
  startup a = Ok c ->
  fee_tolerance c <= 0 ->
  reachable c s ->
  valid_draw r ->
  tick c r s = Ok (s', o) ->
  (bootstrap o = false ->
   skipped o = true /\ fee_tolerance c < usd_per_day o) /\
  applied o = 0 /\
  tx_fees s' = 0 /\ fund_shares s' = init_shares /\ earnings s' = 0.
Proof.
  intros Hs Htol Hreach [Hr _] Ht. apply startup_accepted in Hs as [Hacc _].
  pose proof (reachable_ok c s Hacc Hreach) as Hok.
  pose proof (reachable_frozen c s Hacc Htol Hreach) as Hfr.
  destruct (frozen_step c r s Hacc Htol Hok Hr Hfr) as (Hth & F & S & E & M).
  destruct (tick_inv c Hacc s Hok r Hr _ Ht) as [Eq _].
  assert (Es : s' = fst (step c r s)) by (now rewrite <- Eq).
  assert (Eo : o = snd (step c r s)) by (now rewrite <- Eq).
  rewrite Es, Eo.
  split; [| split; [exact M | auto]].
  unfold step, report. cbn [snd bootstrap skipped usd_per_day].
  intros Hb.
  assert (El : last_timestamp s <> 0).
  { intros El. rewrite Reqb_true in Hb by assumption. discriminate. }
  rewrite branch_skip by auto. cbn. auto.
Qed.

(** ** The share count follows the committed clock *)

Lemma Rpower_sum_quot (x u v w : R) :
  w <> 0 -> Rpower x (u / w) * Rpower x (v / w) = Rpower x ((u + v) / w).
Proof.
  intros Hw. rewrite <- Rpower_plus. f_equal. field. assumption.
Qed.

Lemma run_shares (c : Config) (rs : list R) :
  accepted c -> Forall valid_draw rs ->
  forall (s sf : State) (os : list Tick),
    state_ok c s -> last_timestamp s <> 0 ->
    run c rs s = Ok (sf, os) ->
    Forall (fun o => crossed o = true -> skipped o = false) os ->
    last_timestamp s <= last_timestamp sf /\
    fund_shares sf
    = fund_shares s
      * Rpower (inflation_rate c)
          ((last_timestamp sf - last_timestamp s) * (1 + clock_drift c)
           / IZR (mgmt_fee_period c)).
Proof.
  intros Hacc. pose proof (rate_pos c Hacc) as Hrate.
  pose proof (period_pos c Hacc) as HP.
  assert (Hzero : forall s : State,
    fund_shares s
    = fund_shares s
      * Rpower (inflation_rate c)
          ((last_timestamp s - last_timestamp s) * (1 + clock_drift c)
           / IZR (mgmt_fee_period c))).
  { intros s.
    replace ((last_timestamp s - last_timestamp s) * (1 + clock_drift c)
             / IZR (mgmt_fee_period c)) with 0 by (field; lra).
    rewrite Rpower_O by assumption. lra. }
  induction 1 as [| r rs [Hr _] _ IH]; intros s sf os Hok Hl Hrun Hall.
  - injection Hrun as <- <-. split; [lra | apply Hzero].
  - destruct (run_inv c r rs s sf os Hacc Hok Hr Hrun)
      as [(_ & -> & ->) | (_ & os' & Hrun' & ->)];
      [split; [lra | apply Hzero] |].
    inversion Hall as [| o l Hcs Hall']; subst.
    pose proof (step_ok c Hacc s Hok r Hr) as Hok1.
    pose proof (snapped_ge_last c Hacc s Hok r Hr) as Hge.
    assert (H0 : 0 < last_timestamp s) by (destruct Hok; lra).
    unfold step, report in Hcs. cbn [snd crossed skipped] in Hcs.
    unfold branch_of in Hcs. rewrite Reqb_false in Hcs by assumption.
    destruct (throttled c r s) eqn:Eth.
    + (* skipped: no boundary is crossed, nothing changes *)
      cbn [br_skipped] in Hcs.
      destruct (crosses c r s) eqn:Ecr; [specialize (Hcs eq_refl); discriminate |].
      assert (L1 : last_timestamp (fst (step c r s)) = last_timestamp s).
      { unfold step, next_state, branch_of. rewrite Reqb_false, Eth by assumption.
        cbn. now rewrite Ecr. }
      assert (S1 : fund_shares (fst (step c r s)) = fund_shares s + 0).
      { unfold step, next_state, branch_of. rewrite Reqb_false, Eth by assumption.
        reflexivity. }
      destruct (IH _ _ _ Hok1 ltac:(rewrite L1; assumption) Hrun' Hall')
        as [Hle Hsh].
      rewrite L1 in Hle, Hsh. rewrite S1 in Hsh.
      split; [assumption |]. rewrite Hsh. lra.
    + (* committed *)
      assert (L1 : last_timestamp (fst (step c r s)) = snapped c r s).
      { unfold step, next_state, branch_of. rewrite Reqb_false, Eth by assumption.
        reflexivity. }
      assert (S1 : fund_shares (fst (step c r s))
                   = fund_shares s + fund_shares s * (growth_of c r s - 1)).
      { unfold step, next_state, branch_of. rewrite Reqb_false, Eth by assumption.
        reflexivity. }
      destruct (IH _ _ _ Hok1 ltac:(rewrite L1; lra) Hrun' Hall')
        as [Hle Hsh].
      rewrite L1 in Hle, Hsh. rewrite S1 in Hsh.
      split; [lra |]. rewrite Hsh.
      unfold growth_of, delta_of.
      replace (fund_shares s
               + fund_shares s
                 * (Rpower (inflation_rate c)
                      ((snapped c r s - last_timestamp s) * (1 + clock_drift c)
                       / IZR (mgmt_fee_period c)) - 1))
        with (fund_shares s
              * Rpower (inflation_rate c)
                  ((snapped c r s - last_timestamp s) * (1 + clock_drift c)
                   / IZR (mgmt_fee_period c))) by ring.
      rewrite Rmult_assoc, Rpower_sum_quot by lra.
      apply f_equal. apply f_equal. field. lra.
Qed.

(** X13.  Between two points of a run in which no boundary iteration is
    throttled, the share count grows by exactly the inflation rate raised
    to the drifted share of a fee period that the committed clock has
    advanced: the time of a throttled iteration inside a period is not
    lost, it is minted by the next committed iteration. *)
Theorem shares_follow_clock (a : Args) (c : Config) (s sf : State)
        (rs : list R) (os : list Tick) :
  startup a = Ok c ->
  reachable c s ->
  last_timestamp s <> 0 ->
  Forall valid_draw rs ->
  run c rs s = Ok (sf, os) ->
  Forall (fun o => crossed o = true -> skipped o = false) os ->
  fund_shares sf
  = fund_shares s
    * Rpower (inflation_rate c)
        ((last_timestamp sf - last_timestamp s) * (1 + clock_drift c)
         / IZR (mgmt_fee_period c)).
Proof.
  intros Hs Hreach Hl Hrs Hrun Hall.
  apply startup_accepted in Hs as [Hacc _].
  pose proof (reachable_ok c s Hacc Hreach) as Hok.
  now destruct (run_shares c rs Hacc Hrs s sf os Hok Hl Hrun Hall).
Qed.

(** ** The fees count the mints *)

Lemma run_fees (c : Config) (rs : list R) :
  accepted c -> Forall valid_draw rs ->
  forall (s sf : State) (os : list Tick),
    state_ok c s ->
    run c rs s = Ok (sf, os) ->
    tx_fees sf = tx_fees s + this_tx_fee * INR (length (filter charged os)).
Proof.
  intros Hacc. induction 1 as [| r rs [Hr _] _ IH]; intros s sf os Hok Hrun.
  - injection Hrun as <- <-. cbn. lra.
  - destruct (run_inv c r rs s sf os Hacc Hok Hr Hrun)
      as [(_ & -> & ->) | (_ & os' & Hrun' & ->)]; [cbn; lra |].
    rewrite (IH _ _ _ (step_ok c Hacc s Hok r Hr) Hrun').
    cbn [filter]. unfold charged at 2.
    unfold step, next_state, report.
    cbn [fst snd tx_fees bootstrap skipped].
    unfold branch_of.
    destruct (Reqb (last_timestamp s) 0); cbn; [lra |].
    destruct (throttled c r s); cbn [br_tx_fees br_skipped negb length]; [lra |].
    rewrite S_INR. lra.
Qed.

(** X14.  The fees paid in a run are the fee of one transaction times the
    number of post-bootstrap iterations that were not skipped. *)
Theorem fees_count_mints (a : Args) (c : Config) (rs : list R)
        (sf : State) (os : list Tick) :
  startup a = Ok c ->
  Forall valid_draw rs ->
  run c rs init_state = Ok (sf, os) ->
  tx_fees sf = this_tx_fee * INR (length (filter charged os)).
Proof.
  intros Hs Hrs Hrun. apply startup_accepted in Hs as [Hacc _].
  rewrite (run_fees c rs Hacc Hrs _ _ _ (init_state_ok c) Hrun). cbn. lra.
Qed.

(** ** The customer is only ever diluted *)

(** X15.  With a clock drift of at least -1, every iteration taken from a
    reachable state reports a share price times the share count equal to
    the fund value, a share price and a customer value no higher than the
    initial ones, and earnings that did not decrease. *)
Theorem customer_diluted (a : Args) (c : Config) (s s' : State) (r : R)
        (o : Tick) :
  startup a = Ok c ->
  -1 <= clock_drift c ->
  reachable c s ->
  valid_draw r ->
  tick c r s = Ok (s', o) ->
  fund_price o * fund_shares s' = fund_value /\
  customer_value o = fund_price o * customer_shares /\
  fund_price o <= fund_value / init_shares /\
  customer_value o <= init_customer_value /\
  earnings s <= earnings s'.
Proof.
  intros Hs Hd Hreach [Hr _] Ht.
  apply startup_accepted in Hs as [Hacc _].
  pose proof (reachable_ok c s Hacc Hreach) as Hok.
  pose proof (reachable_shares c s Hacc Hd Hreach) as Hinit.
  pose proof (step_shares_mono c r s Hacc Hok Hr Hd) as Hm.
  destruct (tick_inv c Hacc s Hok r Hr _ Ht) as [E _].
  injection E as -> ->.
  unfold step in Hm. cbn [fst next_state fund_shares] in Hm.
  unfold next_state, report.
  cbn [fund_price fund_shares customer_value earnings].
  set (sh := fund_shares s + br_mint (branch_of c r s)) in *.
  assert (Hsh : init_shares <= sh) by lra.
  assert (Hpos : 0 < sh) by (unfold init_shares in Hsh; lra).
  assert (Hprice : fund_value / sh <= fund_value / init_shares).
  { unfold Rdiv. apply Rmult_le_compat_l; [unfold fund_value; lra |].
    apply Rinv_le_contravar; [unfold init_shares; lra | assumption]. }
  assert (Hp0 : 0 < fund_value / sh)
    by (apply Rdiv_lt_0_compat; [unfold fund_value; lra | assumption]).
  split; [field; lra |].
  split; [reflexivity |].
  split; [assumption |].
  split.
  - unfold init_customer_value.
    apply Rmult_le_compat_r; [unfold customer_shares; lra | assumption].
  - assert (0 <= br_mint (branch_of c r s)) by (unfold sh in Hm; lra).
    assert (0 <= br_mint (branch_of c r s) * (fund_value / sh))
      by (apply Rmult_le_pos; lra).
    lra.
Qed.

(** ** The error the period summary reports *)

Lemma run_empty_out (c : Config) (rs : list R) (s sf : State) :
  run c rs s = Ok (sf, []) -> sf = s.
Proof.
  destruct rs as [| r rs]; [now intros [= <-] |].
  simpl. destruct (loop_cond c s); [| now intros [= <-]].
  destruct (tick c r s) as [[s1 o] |]; cbn; [| discriminate].
  destruct (run c rs s1) as [[sf' os'] |]; cbn; discriminate.
Qed.






(** ** The properties above on the concrete runs *)

Lemma half_horizon : horizon half_config = 864000.
Proof. unfold horizon, sim_periods. cbn. lra. Qed.

Lemma half_min_wait : min_wait half_config = 43199.
Proof. unfold min_wait. cbn. lra. Qed.

Lemma half_moderate :
  (horizon half_config + IZR (mint_period half_config)
   + IZR (mint_period_noise half_config)) * (1 + clock_drift half_config)
  < 315537897600.
Proof. rewrite half_horizon. cbn. lra. Qed.

Lemma valid_draws_repeat (n : nat) : Forall valid_draw (repeat 0 n).
Proof.
  apply Forall_forall. intros x Hx. apply repeat_spec in Hx. subst.
  apply valid_draw_0.
Qed.

Lemma half_growth_bound :
  Rpower (inflation_rate half_config)
    ((horizon half_config + IZR (mint_period half_config)
      + IZR (mint_period_noise half_config)) * (1 + clock_drift half_config)
     / IZR (mgmt_fee_period half_config)) <= float_max.
Proof. apply Rpower_small; [cbn; lra | rewrite half_horizon; cbn; lra]. Qed.

Lemma run_completes_witness :
  exists sf os, run half_config (repeat 0 32) init_state = Ok (sf, os).
Proof.
  apply (run_completes half_args).
  - apply startup_half.
  - cbn. lra.
  - apply half_moderate.
  - apply half_growth_bound.
  - apply valid_draws_repeat.
Defined.

Lemma run_length_bound_witness :
  INR (length [half_tick1; half_tick2]) * min_wait half_config
  <= horizon half_config + 11 * min_wait half_config.
Proof.
  apply (run_length_bound half_args half_config [0; 0] half2).
  - apply startup_half.
  - apply valid_draws_00.
  - apply half_run_first.
Defined.

Lemma loop_exits_witness :
  exists sf os,
    run half_config (repeat 0 32) init_state = Ok (sf, os) /\
    loop_cond half_config sf = false /\
    horizon half_config < this_timestamp sf.
Proof.
  destruct (run_returns half_config (repeat 0 32) half_accepted
              ltac:(cbn; lra)
              ltac:(rewrite datetime_span_value; apply half_moderate)
              half_growth_bound
              (valid_draws_repeat 32) init_state (init_state_ok _))
    as (sf & os & Hrun).
  exists sf, os. split; [exact Hrun |].
  apply (loop_exits half_args half_config (repeat 0 32) sf os).
  - apply startup_half.
  - apply valid_draws_repeat.
  - exact Hrun.
  - rewrite repeat_length, half_horizon, half_min_wait.
    replace (INR 32) with 32 by (rewrite INR_IZR_INZ; reflexivity). lra.
Defined.

Lemma zero_wait_never_ends_witness :
  exists sf os,
    run equal_noise_config (repeat (-1) 3) init_state = Ok (sf, os) /\
    length os = 3%nat /\
    Forall (fun o => bootstrap o = true) os /\
    this_timestamp sf = 0 /\ loop_cond equal_noise_config sf = true.
Proof.
  apply (zero_wait_never_ends equal_noise_args).
  - apply startup_equal_noise.
  - reflexivity.
Defined.

Lemma fee_budget_kept_witness :
  0 < this_timestamp half2 /\
  tx_fees half2 / (this_timestamp half2 / (60 * 60 * 24))
  <= fee_tolerance half_config.
Proof.
  apply (fee_budget_kept half_args).
  - apply startup_half.
  - apply half2_reachable.
  - destruct half2_fields as (_ & _ & -> & _). lra.
Defined.

Lemma no_tolerance_no_mint_witness :
  bootstrap strict_tick2 = false /\
  skipped strict_tick2 = true /\
  fee_tolerance strict_config < usd_per_day strict_tick2 /\
  applied strict_tick2 = 0 /\
  tx_fees strict2 = 0 /\ fund_shares strict2 = init_shares /\
  earnings strict2 = 0.
Proof.
  destruct strict_ticks as (Hreach & Hl & Ht).
  destruct (no_tolerance_no_mint strict_args strict_config strict1 strict2 0
              strict_tick2 startup_strict ltac:(cbn; lra) Hreach valid_draw_0
              Ht) as (Hskip & A & F & S & E).
  assert (Hb : bootstrap strict_tick2 = false).
  { change (Reqb (last_timestamp strict1) 0 = false).
    apply Reqb_false. rewrite Hl. lra. }
  destruct (Hskip Hb) as [K U].
  split; [exact Hb |]. split; [exact K |]. split; [exact U |].
  split; [exact A |]. split; [exact F |]. split; [exact S | exact E].
Defined.

Lemma half_second_unthrottled :
  Forall (fun o => crossed o = true -> skipped o = false)
    ([half_tick3] ++ [half_tick4]).
Proof.
  destruct half3_fields as (_ & _ & _ & _ & S3 & _).
  destruct half4_fields as (_ & _ & S4 & _).
  constructor; [auto |]. constructor; [auto | constructor].
Qed.

Lemma shares_follow_clock_witness :
  fund_shares half4
  = fund_shares half2
    * Rpower (inflation_rate half_config)
        ((last_timestamp half4 - last_timestamp half2)
         * (1 + clock_drift half_config)
         / IZR (mgmt_fee_period half_config)).
Proof.
  apply (shares_follow_clock half_args half_config half2 half4 [0; 0]
           ([half_tick3] ++ [half_tick4])).
  - apply startup_half.
  - apply half2_reachable.
  - destruct half2_fields as (-> & _). lra.
  - apply valid_draws_00.
  - apply half_run_second.
  - apply half_second_unthrottled.
Defined.

Lemma fees_count_mints_witness :
  tx_fees half2
  = this_tx_fee * INR (length (filter charged [half_tick1; half_tick2])).
Proof.
  apply (fees_count_mints half_args half_config [0; 0]).
  - apply startup_half.
  - apply valid_draws_00.
  - apply half_run_first.
Defined.

Lemma customer_diluted_witness :
  fund_price half_tick2 * fund_shares half2 = fund_value /\
  customer_value half_tick2 = fund_price half_tick2 * customer_shares /\
  fund_price half_tick2 <= fund_value / init_shares /\
  customer_value half_tick2 <= init_customer_value /\
  earnings half1 <= earnings half2.
Proof.
  apply (customer_diluted half_args half_config half1 half2 0 half_tick2).
  - apply startup_half.
  - cbn. lra.
  - apply half1_reachable.
  - apply valid_draw_0.
  - apply half_tick2_eq.
Defined.



(** ** The counters of a period summary *)

Lemma run_counters (c : Config) (rs : list R) :
  accepted c -> Forall valid_draw rs ->
  forall (s sf : State) (os : list Tick),
    state_ok c s -> run c rs s = Ok (sf, os) ->
    Forall (fun o => new_period o = false) os ->
    num_mints sf = (num_mints s + Z.of_nat (length (filter charged os)))%Z /\
    num_skips sf = (num_skips s + Z.of_nat (length (filter skipped os)))%Z.
Proof.
  intros Hacc. induction 1 as [| r rs [Hr _] _ IH]; intros s sf os Hok Hrun Hall.
  - injection Hrun as <- <-. cbn. lia.
  - destruct (run_inv c r rs s sf os Hacc Hok Hr Hrun)
      as [(_ & -> & ->) | (_ & os' & Hrun' & ->)]; [cbn; lia |].
    inversion Hall as [| o l Hnp Hall']; subst.
    destruct (IH _ _ _ (step_ok c Hacc s Hok r Hr) Hrun' Hall') as [Hm Hk].
    rewrite Hm, Hk. clear Hm Hk IH.
    revert Hnp. cbn [filter]. unfold charged at 2.
    unfold step, next_state, report.
    cbn [fst snd num_mints num_skips bootstrap skipped new_period].
    unfold branch_of.
    destruct (Reqb (last_timestamp s) 0); cbn; [discriminate |].
    destruct (throttled c r s);
      cbn [br_new_period br_num_mints br_num_skips br_skipped negb length];
      intros ->; lia.
Qed.

(** X17.  A period summary counts the iterations since the previous
    summary: its mints are the counter left by that summary plus the paid
    iterations since, its skips the counter plus the skipped ones, and it
    resets both counters to 0. *)
Theorem summary_counts (a : Args) (c : Config) (s sf : State) (rs : list R)
        (body : list Tick) (b : Tick) :
  startup a = Ok c ->
  reachable c s ->
  Forall valid_draw rs ->
  run c rs s = Ok (sf, body ++ [b]) ->
  Forall (fun o => new_period o = false) body ->
  new_period b = true ->
  num_mints sf = 0%Z /\ num_skips sf = 0%Z /\
  exists sm,
    summary b = Some sm /\
    sum_mints sm
    = (num_mints s + Z.of_nat (length (filter charged (body ++ [b]))))%Z /\
    sum_skips sm
    = (num_skips s + Z.of_nat (length (filter skipped (body ++ [b]))))%Z /\
    sum_start sm = (sum_mints sm =? 0)%Z.
Proof.
  intros Hs Hreach Hrs Hrun Hbody Hnp.
  apply startup_accepted in Hs as [Hacc _].
  pose proof (reachable_ok c s Hacc Hreach) as Hok.
  destruct (run_app_inv c body [b] rs s sf Hrun)
    as (rs1 & rs2 & sp & -> & R1 & R2).
  apply Forall_app in Hrs as [Hrs1 Hrs2].
  pose proof (run_ok c rs1 Hacc Hrs1 _ _ _ Hok R1) as Hokp.
  destruct (run_counters c rs1 Hacc Hrs1 _ _ _ Hok R1 Hbody) as [Hm Hk].
  destruct rs2 as [| rl rs2]; [discriminate |].
  inversion Hrs2 as [| x l [Hrl _] _]; subst.
  destruct (run_inv c rl rs2 sp sf _ Hacc Hokp Hrl R2)
    as [(_ & _ & E) | (_ & os' & R3 & E)]; [discriminate |].
  injection E as -> <-. apply run_empty_out in R3. subst sf.
  rewrite !filter_app, !length_app, !Nat2Z.inj_add, !Z.add_assoc, <- Hm, <- Hk.
  revert Hnp. cbn [filter]. unfold charged.
  unfold step, next_state, report, summary_of.
  cbn [fst snd num_mints num_skips bootstrap skipped new_period summary].
  intros ->.
  split; [reflexivity |]. split; [reflexivity |].
  eexists. split; [reflexivity |].
  cbn [sum_mints sum_skips sum_start].
  unfold branch_of.
  destruct (Reqb (last_timestamp sp) 0); cbn; [repeat split; lia |].
  destruct (throttled c rl sp); cbn; repeat split; lia.
Qed.

Lemma half_first_body : Forall (fun o => new_period o = false) [half_tick3].
Proof.
  destruct half3_fields as (_ & _ & _ & C3 & _).
  destruct half2_fields as (L2 & _).
  constructor; [| constructor].
  unfold half_tick3, step, report. cbn [snd new_period].
  rewrite branch_new_period.
  rewrite Reqb_false by (rewrite L2; lra).
  exact C3.
Qed.

Lemma half_tick4_new_period : new_period half_tick4 = true.
Proof.
  destruct half4_fields as (_ & C4 & _).
  unfold half_tick4, step, report. cbn [snd new_period].
  rewrite branch_new_period. unfold half_tick4, step, report in C4.
  cbn [snd crossed] in C4. rewrite C4. apply orb_true_r.
Qed.

Lemma summary_counts_witness :
  num_mints half4 = 0%Z /\ num_skips half4 = 0%Z /\
  exists sm,
    summary half_tick4 = Some sm /\
    sum_mints sm
    = (num_mints half2
       + Z.of_nat (length (filter charged ([half_tick3] ++ [half_tick4]))))%Z /\
    sum_skips sm
    = (num_skips half2
       + Z.of_nat (length (filter skipped ([half_tick3] ++ [half_tick4]))))%Z /\
    sum_start sm = (sum_mints sm =? 0)%Z.
Proof.
  apply (summary_counts half_args half_config half2 half4 [0; 0]).
  - apply startup_half.
  - apply half2_reachable.
  - apply valid_draws_00.
  - apply half_run_second.
  - apply half_first_body.
  - apply half_tick4_new_period.
Defined.
